(** * Page-interaction script of the portfolio site: a shallow embedding

    The script (src/script.js) is a handful of independent event handlers
    over the DOM.  Each class of the script is a module here; the part of the
    DOM a handler reads or writes is the state it is given and returns.

    - strings are [string]; an attribute that may be absent ([getAttribute]
      returning [null], [localStorage.getItem] returning [null]) is
      [option string];
    - a [classList] is the ordered list of its tokens;
    - a number the script only compares (an offset of a bounding rectangle)
      is a rational ([Q]): every finite double is one, and the comparisons of
      the script agree with those of [Q];
    - a number the script computes with is a double ([float], the binary64
      numbers of the kernel), and [+], [-] and [*] are those of doubles;
    - [localStorage] and the named controls of the form are [gmap]s;
    - the set of targets of the intersection observer is a [gset]. *)

From Stdlib Require Import QArith Lqa Floats Uint63.
From stdpp Require Import base gmap sets list strings sorting.

Set Warnings "-inexact-float".

Close Scope Q_scope.
Open Scope string_scope.

(** ** DOM helpers *)

Module DOM.

(** [DOMTokenList.add]: appends the token unless it is already there. *)
Definition classList_add (tok : string) (cl : list string) : list string :=
  if bool_decide (tok ∈ cl) then cl else cl ++ [tok].

(** [DOMTokenList.remove]: drops every occurrence of the token. *)
Definition classList_remove (tok : string) (cl : list string) : list string :=
  filter (λ t, t ≠ tok) cl.

(** [DOMTokenList.contains]. *)
Definition classList_contains (tok : string) (cl : list string) : bool :=
  bool_decide (tok ∈ cl).

(** [<=] on finite numbers is decidable; the script's comparison is
    [Qle_bool]. *)
#[export] Instance Qle_decision (x y : Q) : Decision (x <= y)%Q.
Proof.
  destruct (Qle_bool x y) eqn:E.
  - left. by apply Qle_bool_iff.
  - right. intros H. apply Qle_bool_iff in H. congruence.
Defined.

(** The index a [forEach] hands to its callback, as the double it is.  (An
    index of a [NodeList] is below 2^32, where the conversion is exact.) *)
Definition index_number (index : nat) : float :=
  PrimFloat.of_uint63 (Uint63.of_Z (Z.of_nat index)).

(** String conversion of a value that may be [null], as done by [+] and by
    template literals. *)
Definition js_string (v : option string) : string :=
  match v with Some s => s | None => "null" end.

(** [v || d] on a string that may be [null]: [null] and the empty string are
    falsy. *)
Definition js_or (v : option string) (d : string) : string :=
  match v with
  | Some s => if bool_decide (s = "") then d else s
  | None => d
  end.

(** [!v] on a string that may be [null]. *)
Definition js_not (v : option string) : bool :=
  match v with
  | Some s => bool_decide (s = "")
  | None => true
  end.

End DOM.

(** ** NavigationManager: the scroll handler of [updateActiveNavigation] *)

Module NavigationManager.
Import DOM.

(** A [section[id]] element as the handler sees it: its [id] attribute and
    [getBoundingClientRect().top]. *)
Record PageSection := { sec_id : string; sec_top : Q }.

(** A [.nav-link] element: its [href] attribute and its class list. *)
Record NavLink := { href : option string; classList : list string }.

(** The fixed threshold of the handler. *)
Definition threshold : Q := 150.

(** One turn of [sections.forEach]: the assignment to [current]. *)
Definition visit_section (current : string) (s : PageSection) : string :=
  if Qle_bool (sec_top s) threshold then sec_id s else current.

(** [let current = ''; sections.forEach(...)]. *)
Definition find_current (sections : list PageSection) : string :=
  fold_left visit_section sections "".

(** One turn of [navLinks.forEach]. *)
Definition visit_link (current : string) (link : NavLink) : NavLink :=
  let cleared := classList_remove "active" (classList link) in
  if bool_decide (href link = Some ("#" ++ current))
  then {| href := href link; classList := classList_add "active" cleared |}
  else {| href := href link; classList := cleared |}.

(** The whole scroll listener. *)
Definition updateActiveNavigation
    (sections : list PageSection) (navLinks : list NavLink) : list NavLink :=
  visit_link (find_current sections) <$> navLinks.

(** The active flag of a link. *)
Definition is_active (link : NavLink) : bool :=
  classList_contains "active" (classList link).

Definition active_count (navLinks : list NavLink) : nat :=
  length (filter (λ l, is_active l = true) navLinks).

(** The spec's wording of step 3: the key of the last section, in document
    order, whose top is at most the threshold; empty when there is none. *)
Definition last_match (sections : list PageSection) : string :=
  default "" (last (sec_id <$> filter (λ s, (sec_top s <= threshold)%Q) sections)).

(** The sections come one below the other: their tops do not decrease in
    document order. *)
Definition top_to_bottom (sections : list PageSection) : Prop :=
  StronglySorted (λ a b, (sec_top a <= sec_top b)%Q) sections.

End NavigationManager.

(** ** ThemeManager *)

Module ThemeManager.
Import DOM.

(** The manager's field together with the two places it writes: the
    [data-theme] attribute of the root element and [localStorage]. *)
Record State := {
  currentTheme : string;
  data_theme : option string;
  localStorage : gmap string string
}.

Definition setTheme (theme : string) (st : State) : State :=
  {| data_theme := Some theme;
     localStorage := <["theme" := theme]> (localStorage st);
     currentTheme := theme |}.

Definition toggle (st : State) : State :=
  let newTheme :=
    if bool_decide (currentTheme st = "light") then "dark" else "light" in
  setTheme newTheme st.

(** [init]: [bindEvents] only registers [toggle] as the click listener. *)
Definition init (st : State) : State := setTheme (currentTheme st) st.

(** [new ThemeManager()] on a page whose root has attribute [attr] and whose
    storage is [store]. *)
Definition constructor (attr : option string) (store : gmap string string) : State :=
  init {| currentTheme := js_or (store !! "theme") "light";
          data_theme := attr;
          localStorage := store |}.

(** [n] clicks on the toggle button. *)
Definition clicks (n : nat) (st : State) : State := Nat.iter n toggle st.

Definition is_light_or_dark (theme : string) : Prop :=
  theme = "light" ∨ theme = "dark".

(** The three places that hold the theme agree, and the theme is not the
    empty string. *)
Definition in_step (st : State) : Prop :=
  localStorage st !! "theme" = Some (currentTheme st)
  ∧ data_theme st = Some (currentTheme st)
  ∧ currentTheme st ≠ "".

(** The page is loaded again: a new manager is built on the storage the old
    one left behind; the root element is that of the fresh document. *)
Definition reload (attr : option string) (st : State) : State :=
  constructor attr (localStorage st).

End ThemeManager.

(** ** SkillsAnimator, [debounce] and the resize listener *)

Module SkillsAnimator.
Import DOM.

(** A [.skill-progress] element: its [data-level] attribute and the [width]
    of its inline style (the empty string when the inline style has none). *)
Record SkillBar := { data_level : option string; width : string }.

(** A timer set by [animateSkillBars]: the closure keeps the bar and the
    level read when the timer was set. *)
Record Timer := { delay : nat; target : nat; level : option string }.

Record State := {
  animated : bool;
  skillBars : list SkillBar;
  timers : list Timer
}.

Record Rect := { rect_top : Q; rect_left : Q; rect_bottom : Q; rect_right : Q }.

Record Window := {
  innerHeight : Q; clientHeight : Q;
  innerWidth : Q; clientWidth : Q
}.

(** [a || b] on finite numbers: zero is falsy. *)
Definition js_or_num (a b : Q) : Q := if Qeq_bool a 0 then b else a.

Definition isElementInViewport (w : Window) (rect : Rect) : bool :=
  Qle_bool 0 (rect_top rect) &&
  Qle_bool 0 (rect_left rect) &&
  Qle_bool (rect_bottom rect) (js_or_num (innerHeight w) (clientHeight w)) &&
  Qle_bool (rect_right rect) (js_or_num (innerWidth w) (clientWidth w)).

Section WithCSS.

(** The style object keeps an assigned [width] only if the text parses as
    one, and then in serialised form; otherwise the assignment is
    ignored.  The parser belongs to the browser. *)
Variable css_width : string → option string.

(** [bar.style.width = text]. *)
Definition set_width (text : string) (bar : SkillBar) : SkillBar :=
  match css_width text with
  | Some w => {| data_level := data_level bar; width := w |}
  | None => bar
  end.

(** [animateSkillBars]: one timer per bar, [index * 100] ms ahead. *)
Definition animateSkillBars (st : State) : State :=
  {| animated := animated st;
     skillBars := skillBars st;
     timers := timers st ++
       imap (λ index bar,
               {| delay := index * 100; target := index;
                  level := data_level bar |}) (skillBars st) |}.

(** The scroll listener of [bindScrollAnimation]; [skills] is the result
    of [getElementById('skills')] with its bounding rectangle. *)
Definition on_scroll (w : Window) (skills : option Rect) (st : State) : State :=
  if negb (animated st) then
    match skills with
    | Some rect =>
        if isElementInViewport w rect then
          let st' := animateSkillBars st in
          {| animated := true; skillBars := skillBars st'; timers := timers st' |}
        else st
    | None => st
    end
  else st.

(** The [k]-th pending timer fires: [bar.style.width = level + '%']. *)
Definition fire (k : nat) (st : State) : State :=
  match timers st !! k with
  | Some t =>
      {| animated := animated st;
         skillBars :=
           alter (set_width (js_string (level t) ++ "%")) (target t) (skillBars st);
         timers := delete k (timers st) |}
  | None => st
  end.

(** One turn of the [forEach] of the resize callback. *)
Definition resize_bar (bar : SkillBar) : SkillBar :=
  let level := data_level bar in
  if bool_decide (width bar ≠ "0%")
  then set_width (js_string level ++ "%") bar
  else bar.

(** The callback handed to [debounce] for the resize event. *)
Definition resize_callback (st : State) : State :=
  {| animated := animated st;
     skillBars := resize_bar <$> skillBars st;
     timers := timers st |}.

End WithCSS.

(** [debounce(func, wait)].  The closure owns one variable, [timeout]; here
    it holds the time (ms) at which the pending timer is due, and [None]
    once that timer has run. *)
Section Debounce.
Context {S : Type}.
Variable func : S → S.
Variable wait : nat.

(** [executedFunction] called at time [now]: the pending timer is
    cleared and a new one is set. *)
Definition executedFunction (now : nat) (timeout : option nat) : option nat :=
  Some (now + wait).

(** The event loop reaches time [now]: a timer that is due runs [later],
    which calls [func]. *)
Definition elapse (now : nat) (st : option nat * S) : option nat * S :=
  match st.1 with
  | Some due => if bool_decide (due ≤ now)%nat then (None, func st.2) else st
  | None => st
  end.

(** The event fires at time [now]: timers due by then have run. *)
Definition call_at (st : option nat * S) (now : nat) : option nat * S :=
  let st' := elapse now st in (executedFunction now st'.1, st'.2).

(** A burst of events at the given times, then nothing until [stop]. *)
Definition burst (times : list nat) (stop : nat) (s : S) : option nat * S :=
  elapse stop (fold_left call_at times (None, s)).

(** Successive events closer than [wait] to one another. *)
Fixpoint quick (last : nat) (times : list nat) : Prop :=
  match times with
  | [] => True
  | t :: rest => (last ≤ t ∧ t < last + wait)%nat ∧ quick t rest
  end.

End Debounce.

(** What the timer of a bar does to it when the level it kept is the bar's
    own. *)
Definition reveal_bar (css_width : string → option string) (bar : SkillBar) : SkillBar :=
  set_width css_width (js_string (data_level bar) ++ "%") bar.

(** The pending timers run one after the other in the order they were set,
    which is the order of their delays. *)
Definition fire_all (css_width : string → option string) (st : State) : State :=
  Nat.iter (length (timers st)) (fire css_width 0) st.

(** Successive events more than [wait] apart. *)
Fixpoint spaced (wait prev : nat) (times : list nat) : Prop :=
  match times with
  | [] => True
  | t :: rest => (prev + wait < t)%nat ∧ spaced wait t rest
  end.

(** [window.addEventListener('resize', debounce(..., 250))]. *)
Definition on_resize_burst (css_width : string → option string)
    (times : list nat) (stop : nat) (st : State) : option nat * State :=
  burst (resize_callback css_width) 250 times stop st.

(** A browser-side parser good enough for the percentages of the page:
    one or more decimal digits followed by [%], kept as written. *)
Fixpoint all_digits (s : string) : bool :=
  match s with
  | EmptyString => true
  | String c rest =>
      (Nat.leb 48 (Ascii.nat_of_ascii c) && Nat.leb (Ascii.nat_of_ascii c) 57)
      && all_digits rest
  end.

Definition css_percentage (text : string) : option string :=
  let n := String.length text in
  if bool_decide (2 ≤ n)%nat
     && bool_decide (String.substring (n - 1) 1 text = "%")
     && all_digits (String.substring 0 (n - 1) text)
  then Some text else None.

End SkillsAnimator.

(** ** ContactFormManager *)

Module ContactFormManager.
Import DOM.

(** A named control of the form: its current and its default value. *)
Record Control := { value : string; defaultValue : string }.

(** [#submit-btn]: the inline [display] of its [.btn-text] and
    [.btn-loading] children ([None] when [querySelector] finds none) and its
    [disabled] property. *)
Record Button := {
  btnText : option string;
  btnLoading : option string;
  disabled : bool
}.

(** [#toast]: the text of its [.toast-message] and [.toast-icon] children
    ([None] when [querySelector] finds none) and its class list. *)
Record Toast := {
  toastMessage : option string;
  toastIcon : option string;
  toastClasses : list string
}.

(** The object [{ name, email, message }]. *)
Record FormData := { fd_name : string; fd_email : string; fd_message : string }.

(** The two callbacks the class hands to [setTimeout]. *)
Inductive Callback :=
| HideToast
| SubmissionDone (data : FormData).

(** The fields of the manager ([getElementById] gives [None] for a missing
    element; the listener is bound only when the form exists), the pending
    timers with their delays in ms, and what was written to the console. *)
Record State := {
  form : gmap string Control;
  submitBtn : option Button;
  toast : option Toast;
  timers : list (nat * Callback);
  console : list FormData
}.

Inductive Exn :=
| TypeError
| Failure (reason : string).

Inductive Completion :=
| Normal
| Throw (e : Exn).

(** How an awaited promise settles. *)
Inductive Settlement :=
| Fulfilled
| Rejected (e : Exn).

(** A statement: it changes the state and completes normally or throws; what
    it changed before throwing stays changed. *)
Definition Cmd : Type := State → State * Completion.

Definition seq (c1 c2 : Cmd) : Cmd :=
  λ st, match c1 st with
        | (st', Normal) => c2 st'
        | (st', Throw e) => (st', Throw e)
        end.

Definition throw (e : Exn) : Cmd := λ st, (st, Throw e).

(** [try { body } catch (error) { handler } finally { cleanup }]. *)
Definition try_catch_finally (body : Cmd) (handler : Exn → Cmd) (cleanup : Cmd) : Cmd :=
  λ st,
    let (st1, c1) := body st in
    let (st2, c2) :=
      match c1 with
      | Normal => (st1, Normal)
      | Throw e => handler e st1
      end in
    let (st3, c3) := cleanup st2 in
    match c3 with
    | Normal => (st3, c2)
    | Throw e => (st3, Throw e)
    end.

Definition with_toast (t : Toast) (st : State) : State :=
  {| form := form st; submitBtn := submitBtn st; toast := Some t;
     timers := timers st; console := console st |}.

Definition with_button (b : Button) (st : State) : State :=
  {| form := form st; submitBtn := Some b; toast := toast st;
     timers := timers st; console := console st |}.

Definition with_form (f : gmap string Control) (st : State) : State :=
  {| form := f; submitBtn := submitBtn st; toast := toast st;
     timers := timers st; console := console st |}.

Definition setTimeout (cb : Callback) (ms : nat) (st : State) : State :=
  {| form := form st; submitBtn := submitBtn st; toast := toast st;
     timers := timers st ++ [(ms, cb)]; console := console st |}.

Definition icon_of (type : string) : string :=
  if bool_decide (type = "success") then "✅" else "❌".

Definition showToast (message type : string) : Cmd :=
  λ st,
    match toast st with
    | None => (st, Throw TypeError)
    | Some t =>
        match toastMessage t with
        | None => (st, Throw TypeError)
        | Some _ =>
            let t1 := {| toastMessage := Some message; toastIcon := toastIcon t;
                         toastClasses := toastClasses t |} in
            match toastIcon t with
            | None => (with_toast t1 st, Throw TypeError)
            | Some _ =>
                let t2 := {| toastMessage := Some message;
                             toastIcon := Some (icon_of type);
                             toastClasses := classList_add "show" (toastClasses t) |} in
                (setTimeout HideToast 5000 (with_toast t2 st), Normal)
            end
        end
    end.

Definition setLoadingState (loading : bool) : Cmd :=
  λ st,
    match submitBtn st with
    | None => (st, Throw TypeError)
    | Some b =>
        let shown := if loading then "none" else "inline" in
        let spinner := if loading then "inline" else "none" in
        match btnText b with
        | None => (st, Throw TypeError)
        | Some _ =>
            let b1 := {| btnText := Some shown; btnLoading := btnLoading b;
                         disabled := disabled b |} in
            match btnLoading b with
            | None => (with_button b1 st, Throw TypeError)
            | Some _ =>
                (with_button {| btnText := Some shown; btnLoading := Some spinner;
                                disabled := loading |} st, Normal)
            end
        end
    end.

(** [this.form.reset()]. *)
Definition reset_control (c : Control) : Control :=
  {| value := defaultValue c; defaultValue := defaultValue c |}.

Definition form_reset : Cmd :=
  λ st, (with_form (reset_control <$> form st) st, Normal).

(** [formData.get(key)]. *)
Definition formData_get (key : string) (st : State) : option string :=
  value <$> form st !! key.

Definition msg_incomplete : string := "Por favor, completa todos los campos.".
Definition msg_sent : string :=
  "¡Mensaje enviado! Gracias por contactarme. Te responderé pronto.".
Definition msg_failed : string := "Error al enviar el mensaje. Inténtalo de nuevo.".

(** [submitForm(data)] up to the point where it returns its promise: the
    executor sets the timer. *)
Definition submitForm (data : FormData) (st : State) : State :=
  setTimeout (SubmissionDone data) 2000 st.

(** The body of that timer: it logs and calls [resolve]. *)
Definition submission_timer (data : FormData) (st : State) : State * Settlement :=
  ({| form := form st; submitBtn := submitBtn st; toast := toast st;
      timers := timers st; console := console st ++ [data] |}, Fulfilled).

(** Where [handleFormSubmission] stands when the submit event has been
    handled: it has returned, or it waits for the promise. *)
Inductive Progress :=
| Returned (c : Completion)
| Awaiting (data : FormData).

(** [handleFormSubmission] up to its [await]. *)
Definition start (st : State) : State * Progress :=
  let name := formData_get "name" st in
  let email := formData_get "email" st in
  let message := formData_get "message" st in
  if js_not name || js_not email || js_not message then
    let (st', c) := showToast msg_incomplete "error" st in (st', Returned c)
  else
    match setLoadingState true st with
    | (st1, Normal) =>
        let data := {| fd_name := js_string name; fd_email := js_string email;
                       fd_message := js_string message |} in
        (submitForm data st1, Awaiting data)
    | (st1, Throw e) => (st1, Returned (Throw e))
    end.

(** [handleFormSubmission] from its [await] on, once the promise has
    settled. *)
Definition await (r : Settlement) : Cmd :=
  match r with
  | Fulfilled => λ st, (st, Normal)
  | Rejected e => throw e
  end.

Definition try_block (r : Settlement) : Cmd :=
  seq (await r) (seq (showToast msg_sent "success") form_reset).

Definition catch_block (error : Exn) : Cmd := showToast msg_failed "error".

(** The [try] statement with an arbitrary [catch] clause in place of the one
    of the script. *)
Definition resume_with (handler : Exn → Cmd) (r : Settlement) : Cmd :=
  try_catch_finally (try_block r) handler (setLoadingState false).

Definition resume (r : Settlement) : Cmd := resume_with catch_block r.

Definition hide_toast (st : State) : State :=
  match toast st with
  | Some t =>
      with_toast {| toastMessage := toastMessage t; toastIcon := toastIcon t;
                    toastClasses := classList_remove "show" (toastClasses t) |} st
  | None => st
  end.

(** The [k]-th pending timer fires. *)
Definition fire (k : nat) (st : State) : State * Completion :=
  match timers st !! k with
  | Some (_, cb) =>
      let st' := {| form := form st; submitBtn := submitBtn st; toast := toast st;
                    timers := delete k (timers st); console := console st |} in
      match cb with
      | HideToast => (hide_toast st', Normal)
      | SubmissionDone data =>
          let (st'', r) := submission_timer data st' in resume r st''
      end
  | None => (st, Normal)
  end.

(** A submit event handled to the end with nothing else in between: the
    timer of [submitForm] is the last one set. *)
Definition handleFormSubmission (st : State) : State * Completion :=
  match start st with
  | (st1, Returned c) => (st1, c)
  | (st1, Awaiting _) => fire (length (timers st1) - 1) st1
  end.

(** The elements the handler dereferences without a check are there. *)
Definition button_complete (st : State) : Prop :=
  ∃ b, submitBtn st = Some b ∧ is_Some (btnText b) ∧ is_Some (btnLoading b).

Definition toast_complete (st : State) : Prop :=
  ∃ t, toast st = Some t ∧ is_Some (toastMessage t) ∧ is_Some (toastIcon t).

Definition all_filled (st : State) : Prop :=
  ∃ n e m, formData_get "name" st = Some n ∧ formData_get "email" st = Some e
           ∧ formData_get "message" st = Some m ∧ n ≠ "" ∧ e ≠ "" ∧ m ≠ "".

Definition some_empty (st : State) : Prop :=
  ∃ key, key ∈ ["name"; "email"; "message"]
         ∧ (formData_get key st = None ∨ formData_get key st = Some "").

(** The button shows the loading state, or the normal one. *)
Definition loading_shown (st : State) : Prop :=
  submitBtn st = Some {| btnText := Some "none"; btnLoading := Some "inline";
                         disabled := true |}.

Definition loading_cleared (st : State) : Prop :=
  submitBtn st = Some {| btnText := Some "inline"; btnLoading := Some "none";
                         disabled := false |}.



(** The toast displays [message] with the icon of [type]. *)
Definition toast_shows (message type : string) (st : State) : Prop :=
  ∃ t, toast st = Some t ∧ toastMessage t = Some message
       ∧ toastIcon t = Some (icon_of type) ∧ "show" ∈ toastClasses t.

End ContactFormManager.

(** ** AnimationObserver *)

Module AnimationObserver.
Import DOM.

(** The pieces of a CSS value built by a template literal: the words of its
    text, and [${x}s] for a number [x] the script computes, kept as the
    double it is. *)
Inductive CssToken :=
| Ident (word : string)
| Seconds (x : float).

(** An element matched by the selector list of [observeElements]: three
    properties of its inline style and its class list. *)
Record Element := {
  opacity : string;
  transform : string;
  transition : list CssToken;
  classList : list string
}.

(** The matched elements in document order (an element is named by its
    index in that list) and the targets the observer watches. *)
Record State := {
  elements : list Element;
  observed : gset nat
}.

Record Entry := { target : nat; isIntersecting : bool }.

Definition add_class (tok : string) (el : Element) : Element :=
  {| opacity := opacity el; transform := transform el;
     transition := transition el;
     classList := classList_add tok (classList el) |}.

(** One turn of the [forEach] of the observer's callback. *)
Definition callback_entry (st : State) (entry : Entry) : State :=
  if isIntersecting entry then
    {| elements := alter (add_class "animate-in") (target entry) (elements st);
       observed := observed st ∖ {[ target entry ]} |}
  else st.

(** The callback given to [new IntersectionObserver]. *)
Definition callback (entries : list Entry) (st : State) : State :=
  fold_left callback_entry entries st.

(** The three assignments to [el.style] in [observeElements]. *)
Definition prepare (index : nat) (el : Element) : Element :=
  {| opacity := "0";
     transform := "translateY(50px)";
     transition := [Ident "all"; Ident "0.6s"; Ident "ease";
                    Seconds (index_number index * 0.1)];
     classList := classList el |}.

(** One turn of the [forEach] of [observeElements]. *)
Definition observe_step (st : State) (index : nat) : State :=
  {| elements := alter (prepare index) index (elements st);
     observed := {[ index ]} ∪ observed st |}.

Definition observeElements (st : State) : State :=
  fold_left observe_step (seq 0 (length (elements st))) st.

(** [init]: [createObserver] starts with no target. *)
Definition init (animatedElements : list Element) : State :=
  observeElements {| elements := animatedElements; observed := ∅ |}.

(** Successive callbacks, each with its batch of entries. *)
Definition run (batches : list (list Entry)) (st : State) : State :=
  fold_left (λ s entries, callback entries s) batches st.

(** The injected rule [.animate-in] is [!important]: it wins over the
    inline style. *)
Definition rendered_opacity (el : Element) : string :=
  if classList_contains "animate-in" (classList el) then "1" else opacity el.

Definition rendered_transform (el : Element) : string :=
  if classList_contains "animate-in" (classList el) then "translateY(0)"
  else transform el.

(** The element has made its transition: it carries [animate-in]. *)
Definition triggered (i : nat) (st : State) : bool :=
  match elements st !! i with
  | Some el => classList_contains "animate-in" (classList el)
  | None => false
  end.

(** The states passed through while the entries are handled one by one. *)
Fixpoint trace (entries : list Entry) (st : State) : list State :=
  st :: match entries with
        | [] => []
        | entry :: rest => trace rest (callback_entry st entry)
        end.

(** How often element [i] goes from pending to triggered along a trace. *)
Fixpoint transitions (i : nat) (tr : list State) : nat :=
  match tr with
  | s :: (s' :: _) as rest =>
      (if negb (triggered i s) && triggered i s' then 1 else 0)
      + transitions i rest
  | _ => 0
  end.

(** The part of an element the observer's callback never writes. *)
Definition inline_style (el : Element) : string * string * list CssToken :=
  (opacity el, transform el, transition el).

(** Element [i] is done with: no longer a target and, where it exists,
    carrying [animate-in]. *)
Definition settled (i : nat) (st : State) : Prop :=
  (i ∉ observed st)
  ∧ ∀ el, elements st !! i = Some el → "animate-in" ∈ classList el.

End AnimationObserver.

(** ** ParallaxManager *)

Module ParallaxManager.
Import DOM.

(** The [transform] of an inline style: the text the page gave it, or the
    [translateY(...px)] written by the handler, its number kept as a
    number. *)
Inductive Transform :=
| Initial (text : string)
| TranslateY (px : float).

(** The [.bg-blob] elements in document order and the [.hero-content]
    element, if there is one. *)
Record State := {
  blobs : list Transform;
  heroContent : option Transform
}.

(** [0.2 + (index * 0.1)], in doubles. *)
Definition speed (index : nat) : float :=
  (0.2 + index_number index * 0.1)%float.

(** [scrolled * -0.5], in doubles. *)
Definition rate (scrolled : float) : float := (scrolled * -0.5)%float.

(** The scroll listener; [scrolled] is [window.pageYOffset]. *)
Definition on_scroll (scrolled : float) (st : State) : State :=
  {| blobs := imap (λ index _, TranslateY (scrolled * speed index)%float)
                   (blobs st);
     heroContent := (λ _, TranslateY (rate scrolled)) <$> heroContent st |}.

End ParallaxManager.

(** ** MouseTrail *)

Module MouseTrail.
Import DOM.

(** The [opacity] of a dot: the number written by [createDots], or a text. *)
Inductive Opacity :=
| Number (v : float)
| Text (s : string).

(** An entry of [this.dots]: the opacity and the [translate(..px, ..px)] of
    its element, and its four numbers, all doubles. *)
Record Dot := {
  opacity : Opacity;
  transform : option (float * float);
  x : float;
  y : float;
  targetX : float;
  targetY : float
}.

Record State := {
  dots : list Dot;
  mouse : float * float
}.

Definition new_dot (i : nat) : Dot :=
  {| opacity := Number (0.8 - index_number i * 0.15);
     transform := None;
     x := 0; y := 0; targetX := 0; targetY := 0 |}.

(** [for (let i = 0; i < 5; i++) { ...; this.dots.push(...) }]. *)
Definition createDots (st : State) : State :=
  fold_left (λ s i, {| dots := dots s ++ [new_dot i]; mouse := mouse s |})
            (seq 0 5) st.

Definition set_opacity (o : Opacity) (dot : Dot) : Dot :=
  {| opacity := o; transform := transform dot;
     x := x dot; y := y dot; targetX := targetX dot; targetY := targetY dot |}.

(** The three listeners of [bindMouseMove]. *)
Definition mousemove (clientX clientY : float) (st : State) : State :=
  {| dots := dots st; mouse := (clientX, clientY) |}.

Definition mouseenter (st : State) : State :=
  {| dots := (λ dot, set_opacity (opacity dot) dot) <$> dots st;
     mouse := mouse st |}.

Definition mouseleave (st : State) : State :=
  {| dots := set_opacity (Text "0") <$> dots st; mouse := mouse st |}.

(** The [forEach] of [animate]: [targetX] and [targetY] are the two local
    variables, handed from one dot to the next. *)
Fixpoint follow (tX tY : float) (ds : list Dot) : list Dot :=
  match ds with
  | [] => []
  | dot :: rest =>
      let x' := (x dot + (tX - x dot) * 0.15)%float in
      let y' := (y dot + (tY - y dot) * 0.15)%float in
      {| opacity := opacity dot;
         transform := Some (x' - 3, y' - 3)%float;
         x := x'; y := y'; targetX := tX; targetY := tY |}
      :: follow x' y' rest
  end.

(** One run of [animate]; the next one is asked for with
    [requestAnimationFrame]. *)
Definition animate (st : State) : State :=
  {| dots := follow (mouse st).1 (mouse st).2 (dots st); mouse := mouse st |}.

(** [new MouseTrail()]: [init] creates the dots, binds the listeners and
    runs [animate] once. *)
Definition constructor : State :=
  animate (createDots {| dots := []; mouse := (0, 0)%float |}).

(** What can happen afterwards. *)
Inductive Event :=
| MouseMove (clientX clientY : float)
| MouseEnter
| MouseLeave
| AnimationFrame.

Definition handle (st : State) (ev : Event) : State :=
  match ev with
  | MouseMove clientX clientY => mousemove clientX clientY st
  | MouseEnter => mouseenter st
  | MouseLeave => mouseleave st
  | AnimationFrame => animate st
  end.

Definition run (events : list Event) (st : State) : State :=
  fold_left handle events st.

End MouseTrail.

Module Samples.
Import NavigationManager.

Definition four_sections : list PageSection :=
  [ {| sec_id := "home"; sec_top := 200 |};
    {| sec_id := "about"; sec_top := 100 |};
    {| sec_id := "skills"; sec_top := 50 |};
    {| sec_id := "contact"; sec_top := -10 |} ].

(** A page scrolled down by 900 px: four sections one below the other. *)
Definition page_scrolled : list PageSection :=
  [ {| sec_id := "home"; sec_top := -900 |};
    {| sec_id := "about"; sec_top := -200 |};
    {| sec_id := "skills"; sec_top := 120 |};
    {| sec_id := "contact"; sec_top := 700 |} ].

(** The same target linked twice, as in a header and a drawer menu. *)
Definition twin_links : list NavLink :=
  [ {| href := Some "#about"; classList := ["nav-link"] |};
    {| href := Some "#about"; classList := ["nav-link"] |} ].

(** A link back to the top of the page. *)
Definition top_link : NavLink :=
  {| href := Some "#"; classList := ["nav-link"] |}.

Definition menu : list NavLink :=
  [ {| href := Some "#home"; classList := ["nav-link"; "active"] |};
    {| href := Some "#about"; classList := ["nav-link"] |};
    {| href := Some "#contact"; classList := ["nav-link"] |} ].

(** A storage in which another page of the same origin left its own
    [theme] value. *)
Definition foreign_store : gmap string string := {[ "theme" := "auto" ]}.

Definition three_cards : list AnimationObserver.Element :=
  replicate 3 {| AnimationObserver.opacity := "";
                 AnimationObserver.transform := "";
                 AnimationObserver.transition := [];
                 AnimationObserver.classList := ["project-card"] |}.


Definition first_report : AnimationObserver.Entry :=
  {| AnimationObserver.target := 1; AnimationObserver.isIntersecting := true |}.

(** The three cards after the second one has been reported. *)
Definition revealed_once : AnimationObserver.State :=
  AnimationObserver.callback [first_report] (AnimationObserver.init three_cards).

(** The contact form of the page, filled in, with its button and toast. *)
Definition filled_form : ContactFormManager.State :=
  {| ContactFormManager.form :=
       {[ "name" := {| ContactFormManager.value := "Ana";
                       ContactFormManager.defaultValue := "" |};
          "email" := {| ContactFormManager.value := "ana@example.org";
                        ContactFormManager.defaultValue := "" |};
          "message" := {| ContactFormManager.value := "Hola";
                          ContactFormManager.defaultValue := "" |} ]};
     ContactFormManager.submitBtn :=
       Some {| ContactFormManager.btnText := Some "";
               ContactFormManager.btnLoading := Some "none";
               ContactFormManager.disabled := false |};
     ContactFormManager.toast :=
       Some {| ContactFormManager.toastMessage := Some "";
               ContactFormManager.toastIcon := Some "";
               ContactFormManager.toastClasses := ["toast"] |};
     ContactFormManager.timers := [];
     ContactFormManager.console := [] |}.

Definition filled_data : ContactFormManager.FormData :=
  {| ContactFormManager.fd_name := "Ana";
     ContactFormManager.fd_email := "ana@example.org";
     ContactFormManager.fd_message := "Hola" |}.

(** The same form with the message left empty. *)
Definition message_missing : ContactFormManager.State :=
  ContactFormManager.with_form
    (<[ "message" := {| ContactFormManager.value := "";
                        ContactFormManager.defaultValue := "" |} ]>
       (ContactFormManager.form filled_form))
    filled_form.

(** The skills section before anything was animated: one bar, no inline
    width. *)
Definition fresh_skills : SkillsAnimator.State :=
  {| SkillsAnimator.animated := false;
     SkillsAnimator.skillBars :=
       [ {| SkillsAnimator.data_level := Some "90";
            SkillsAnimator.width := "" |} ];
     SkillsAnimator.timers := [] |}.

(** A window and the rectangle of a skills section that lies within it. *)
Definition desktop : SkillsAnimator.Window :=
  {| SkillsAnimator.innerHeight := 800; SkillsAnimator.clientHeight := 800;
     SkillsAnimator.innerWidth := 1280; SkillsAnimator.clientWidth := 1280 |}.

Definition skills_in_view : SkillsAnimator.Rect :=
  {| SkillsAnimator.rect_top := 120; SkillsAnimator.rect_left := 0;
     SkillsAnimator.rect_bottom := 640; SkillsAnimator.rect_right := 1280 |}.

(** A skills section taller than that window. *)
Definition tall_skills : SkillsAnimator.Rect :=
  {| SkillsAnimator.rect_top := 0; SkillsAnimator.rect_left := 0;
     SkillsAnimator.rect_bottom := 900; SkillsAnimator.rect_right := 1280 |}.

(** Three bars not yet animated, the last one at level zero. *)
Definition three_bars : SkillsAnimator.State :=
  {| SkillsAnimator.animated := false;
     SkillsAnimator.skillBars :=
       [ {| SkillsAnimator.data_level := Some "90";
            SkillsAnimator.width := "" |};
         {| SkillsAnimator.data_level := Some "75";
            SkillsAnimator.width := "" |};
         {| SkillsAnimator.data_level := Some "0";
            SkillsAnimator.width := "" |} ];
     SkillsAnimator.timers := [] |}.

(** Two bars: one whose inline width is [0%], one already at its level. *)
Definition two_bars : SkillsAnimator.State :=
  {| SkillsAnimator.animated := true;
     SkillsAnimator.skillBars :=
       [ {| SkillsAnimator.data_level := Some "80";
            SkillsAnimator.width := "0%" |};
         {| SkillsAnimator.data_level := Some "75";
            SkillsAnimator.width := "60%" |} ];
     SkillsAnimator.timers := [] |}.

(** The filled form on a page that has no [#toast]. *)
Definition filled_no_toast : ContactFormManager.State :=
  {| ContactFormManager.form := ContactFormManager.form filled_form;
     ContactFormManager.submitBtn := ContactFormManager.submitBtn filled_form;
     ContactFormManager.toast := None;
     ContactFormManager.timers := [];
     ContactFormManager.console := [] |}.

(** The form with its message missing on a page that has no [#toast]. *)
Definition missing_no_toast : ContactFormManager.State :=
  {| ContactFormManager.form := ContactFormManager.form message_missing;
     ContactFormManager.submitBtn := ContactFormManager.submitBtn filled_form;
     ContactFormManager.toast := None;
     ContactFormManager.timers := [];
     ContactFormManager.console := [] |}.


(** The filled form on a page whose button has no [.btn-loading] child. *)
Definition filled_no_spinner : ContactFormManager.State :=
  {| ContactFormManager.form := ContactFormManager.form filled_form;
     ContactFormManager.submitBtn :=
       Some {| ContactFormManager.btnText := Some "";
               ContactFormManager.btnLoading := None;
               ContactFormManager.disabled := false |};
     ContactFormManager.toast := ContactFormManager.toast filled_form;
     ContactFormManager.timers := [];
     ContactFormManager.console := [] |}.

End Samples.

(** * Theorems *)

(** ** Class lists *)

Module DOMFacts.
Import DOM.

Lemma classList_remove_absent tok cl : tok ∉ classList_remove tok cl.
Proof.
  unfold classList_remove. intros H.
  apply list_elem_of_filter in H as [H _]. by apply H.
Qed.

Lemma classList_remove_idem tok cl :
  classList_remove tok (classList_remove tok cl) = classList_remove tok cl.
Proof.
  unfold classList_remove. induction cl as [|t cl IH]; [done|].
  rewrite filter_cons. case_decide as Ht; [|done].
  rewrite filter_cons. rewrite decide_True by done. by rewrite IH.
Qed.

Lemma classList_remove_add tok cl :
  classList_remove tok (classList_add tok cl) = classList_remove tok cl.
Proof.
  unfold classList_add. case_bool_decide; [done|].
  unfold classList_remove. rewrite filter_app, filter_cons.
  rewrite decide_False by (intros H'; by apply H').
  by rewrite filter_nil, app_nil_r.
Qed.

Lemma classList_add_present tok cl : tok ∈ classList_add tok cl.
Proof.
  unfold classList_add. case_bool_decide; [done|].
  apply elem_of_app. right. by apply list_elem_of_singleton.
Qed.

Lemma classList_add_id tok cl : tok ∈ cl → classList_add tok cl = cl.
Proof. intros H. unfold classList_add. by rewrite bool_decide_eq_true_2. Qed.

Lemma classList_add_idem tok cl :
  classList_add tok (classList_add tok cl) = classList_add tok cl.
Proof. apply classList_add_id, classList_add_present. Qed.

Lemma classList_contains_add tok cl :
  classList_contains tok (classList_add tok cl) = true.
Proof. apply bool_decide_eq_true_2, classList_add_present. Qed.

Lemma classList_contains_remove tok cl :
  classList_contains tok (classList_remove tok cl) = false.
Proof. apply bool_decide_eq_false_2, classList_remove_absent. Qed.

End DOMFacts.

(** ** The section tracker *)

Module NavigationTheorems.
Import DOM DOMFacts NavigationManager.

Lemma find_current_snoc sections s :
  find_current (sections ++ [s]) = visit_section (find_current sections) s.
Proof. unfold find_current. by rewrite fold_left_app. Qed.

Lemma qualifies_iff s :
  Qle_bool (sec_top s) threshold = true ↔ (sec_top s <= threshold)%Q.
Proof. apply Qle_bool_iff. Qed.

Lemma find_current_is_last_match sections :
  find_current sections = last_match sections.
Proof.
  induction sections as [|s sections IH] using rev_ind; [done|].
  rewrite find_current_snoc, IH. unfold visit_section, last_match.
  rewrite filter_app, filter_cons, filter_nil.
  destruct (Qle_bool (sec_top s) threshold) eqn:E.
  - rewrite decide_True by by apply qualifies_iff.
    rewrite fmap_app. simpl. by rewrite last_snoc.
  - rewrite decide_False; [by rewrite app_nil_r|].
    intros H. apply qualifies_iff in H. congruence.
Qed.

Lemma fold_visit_none after current :
  Forall (λ x, ¬ (sec_top x <= threshold)%Q) after →
  fold_left visit_section after current = current.
Proof.
  intros H. revert current.
  induction H as [|x after Hx _ IH]; intros current; [done|].
  simpl. rewrite IH. unfold visit_section.
  destruct (Qle_bool (sec_top x) threshold) eqn:E; [|done].
  by apply qualifies_iff in E.
Qed.

(** C1: after the walk over the sections, [current] is the key of the last
    section in document order whose top is at most 150, and it is empty
    when no section has its top at most 150. *)
Theorem find_current_last_wins (sections : list PageSection) :
  find_current sections = last_match sections
  ∧ (∀ (before : list PageSection) s after,
       sections = (before ++ s :: after)%list →
       (sec_top s <= 150)%Q →
       Forall (λ x, ¬ (sec_top x <= 150)%Q) after →
       find_current sections = sec_id s)
  ∧ (Forall (λ x, ¬ (sec_top x <= 150)%Q) sections →
     find_current sections = "").
Proof.
  split; [apply find_current_is_last_match|]. split.
  - intros before s after -> Hs Hafter.
    unfold find_current. rewrite fold_left_app. simpl.
    rewrite fold_visit_none by done.
    unfold visit_section. by rewrite (proj2 (qualifies_iff s) Hs).
  - intros H. by apply fold_visit_none.
Qed.

Lemma find_current_last_wins_witness :
  find_current Samples.four_sections = "contact"
  ∧ find_current [ {| sec_id := "home"; sec_top := 151 |} ] = "".
Proof.
  split.
  - apply (proj1 (proj2 (find_current_last_wins Samples.four_sections))
             [ {| sec_id := "home"; sec_top := 200 |};
               {| sec_id := "about"; sec_top := 100 |};
               {| sec_id := "skills"; sec_top := 50 |} ]
             {| sec_id := "contact"; sec_top := -10 |} []).
    + reflexivity.
    + by vm_compute.
    + constructor.
  - apply (proj2 (proj2 (find_current_last_wins _))).
    repeat constructor. by vm_compute.
Defined.

Lemma href_visit_link current link :
  href (visit_link current link) = href link.
Proof. unfold visit_link. by case_bool_decide. Qed.

Lemma is_active_visit_link current link :
  is_active (visit_link current link)
  = bool_decide (href link = Some ("#" ++ current)).
Proof.
  unfold visit_link, is_active. case_bool_decide; simpl.
  - apply classList_contains_add.
  - apply classList_contains_remove.
Qed.

Lemma visit_link_idem current link :
  visit_link current (visit_link current link) = visit_link current link.
Proof.
  unfold visit_link at 2. case_bool_decide as Hm; unfold visit_link; simpl.
  - rewrite bool_decide_eq_true_2 by done.
    by rewrite classList_remove_add, classList_remove_idem.
  - rewrite bool_decide_eq_false_2 by done.
    by rewrite classList_remove_idem.
Qed.

Lemma active_count_matching current (navLinks : list NavLink) :
  active_count (visit_link current <$> navLinks)
  = length (filter (λ l, href l = Some ("#" ++ current)) navLinks).
Proof.
  unfold active_count. induction navLinks as [|l navLinks IH]; [done|].
  rewrite fmap_cons, !filter_cons, is_active_visit_link.
  destruct (decide (href l = Some ("#" ++ current))) as [Hm|Hm].
  - rewrite bool_decide_eq_true_2 by done.
    rewrite decide_True by done. simpl. by rewrite IH.
  - rewrite bool_decide_eq_false_2 by done.
    rewrite decide_False by done. done.
Qed.

Lemma matching_none v (navLinks : list NavLink) :
  (∀ l, l ∈ navLinks → href l ≠ v) →
  filter (λ l, href l = v) navLinks = [].
Proof.
  induction navLinks as [|l navLinks IH]; intros H; [done|].
  rewrite filter_cons, decide_False by (apply H; left).
  apply IH. intros l' Hl'. apply H. by right.
Qed.

Lemma matching_at_most_one v (navLinks : list NavLink) :
  NoDup (href <$> navLinks) →
  (length (filter (λ l, href l = v) navLinks) ≤ 1)%nat.
Proof.
  induction navLinks as [|l navLinks IH]; intros Hnd; [simpl; lia|].
  rewrite fmap_cons in Hnd. apply NoDup_cons in Hnd as [Hl Hnd].
  rewrite filter_cons. case_decide as Hm; [|by apply IH].
  rewrite matching_none; [simpl; lia|].
  intros l' Hl' Heq. apply Hl. rewrite Hm, <- Heq.
  by apply list_elem_of_fmap_2.
Qed.

(** C2, as the handler has it: the links that are active after one run are
    those whose [href] is [#] followed by [current]; when the [href]s of
    the links are pairwise distinct at most one link is active, and when no
    [href] matches no link is active. *)
Theorem active_links_match_current
    (sections : list PageSection) (navLinks : list NavLink) :
  let current := find_current sections in
  let after := updateActiveNavigation sections navLinks in
  (∀ i link, navLinks !! i = Some link →
     ∃ link', after !! i = Some link' ∧ href link' = href link
              ∧ (is_active link' = true ↔ href link = Some ("#" ++ current)))
  ∧ (NoDup (href <$> navLinks) → (active_count after ≤ 1)%nat)
  ∧ ((∀ link, link ∈ navLinks → href link ≠ Some ("#" ++ current)) →
     active_count after = 0).
Proof.
  intros current after. subst after. unfold updateActiveNavigation.
  fold current. split; [|split].
  - intros i link Hi. exists (visit_link current link).
    rewrite list_lookup_fmap, Hi. split; [done|].
    split; [apply href_visit_link|].
    rewrite is_active_visit_link. apply bool_decide_eq_true.
  - intros Hnd. rewrite active_count_matching. by apply matching_at_most_one.
  - intros Hnone. rewrite active_count_matching.
    by rewrite matching_none.
Qed.

Lemma active_links_match_current_witness :
  (active_count (updateActiveNavigation Samples.four_sections Samples.menu) ≤ 1)%nat
  ∧ active_count (updateActiveNavigation [] Samples.menu) = 0
  ∧ ∃ link', updateActiveNavigation Samples.four_sections Samples.menu !! 2
             = Some link' ∧ is_active link' = true.
Proof.
  pose proof (active_links_match_current Samples.four_sections Samples.menu)
    as (Hlinks & Hone & _).
  pose proof (active_links_match_current [] Samples.menu) as (_ & _ & Hnone).
  split; [|split].
  - apply Hone. apply (bool_decide_unpack _). by vm_compute.
  - apply Hnone. apply Forall_forall.
    apply (bool_decide_unpack _). by vm_compute.
  - destruct (Hlinks 2 {| href := Some "#contact"; classList := ["nav-link"] |}
                eq_refl) as (link' & Hl & _ & Hact).
    exists link'. split; [done|]. by apply Hact.
Defined.

(** C2 as stated fails: two links to the same section are both active after
    one run, and a link whose [href] is [#] is active while [current] is
    empty. *)
Lemma several_links_active :
  active_count
    (updateActiveNavigation [ {| sec_id := "about"; sec_top := 0 |} ]
                            Samples.twin_links) = 2
  ∧ find_current [] = ""
  ∧ active_count (updateActiveNavigation [] [Samples.top_link]) = 1.
Proof. by vm_compute. Qed.

(** C7: running the handler again on unchanged sections gives the links the
    first run gave, however often it is repeated; the active flags it leaves
    are a function of the sections and of the [href]s alone, not of the
    flags it found. *)
Theorem updateActiveNavigation_idempotent
    (sections : list PageSection) (navLinks : list NavLink) (n : nat) :
  Nat.iter (S n) (updateActiveNavigation sections) navLinks
  = updateActiveNavigation sections navLinks
  ∧ is_active <$> updateActiveNavigation sections navLinks
    = (λ l, bool_decide (href l = Some ("#" ++ find_current sections)))
        <$> navLinks.
Proof.
  split.
  - induction n as [|n IH]; [done|].
    change (Nat.iter (S (S n)) ?f ?x) with (f (Nat.iter (S n) f x)).
    rewrite IH. unfold updateActiveNavigation.
    rewrite <- list_fmap_compose. apply list_fmap_ext.
    intros i l _. apply visit_link_idem.
  - unfold updateActiveNavigation. rewrite <- list_fmap_compose.
    apply list_fmap_ext. intros i l _. apply is_active_visit_link.
Qed.

End NavigationTheorems.

(** ** The theme store *)

Module ThemeTheorems.
Import DOM ThemeManager.

Lemma currentTheme_toggle st :
  currentTheme (toggle st)
  = if bool_decide (currentTheme st = "light") then "dark" else "light".
Proof. done. Qed.

(** C8, as the class has it: a stored preference that is not the empty string
    becomes the current theme as it is, and ["light"] is taken when nothing or
    the empty string is stored; so the current theme is ["light"] or ["dark"]
    when the stored preference is absent, empty or one of the two, and it is
    one of the two after every toggle; [setTheme] stores the theme under the
    key [theme] and sets it as the [data-theme] attribute; a toggle turns
    ["light"] into ["dark"] and anything else into ["light"], so two toggles
    give back a theme that is ["light"] or ["dark"]. *)
Theorem theme_store
    (attr : option string) (store : gmap string string)
    (theme : string) (st : State) :
  (∀ stored, store !! "theme" = Some stored → stored ≠ "" →
     currentTheme (constructor attr store) = stored)
  ∧ (store !! "theme" = None ∨ store !! "theme" = Some "" →
     currentTheme (constructor attr store) = "light")
  ∧ (store !! "theme" ∈ [None; Some ""; Some "light"; Some "dark"] →
     is_light_or_dark (currentTheme (constructor attr store)))
  ∧ is_light_or_dark (currentTheme (toggle st))
  ∧ (currentTheme (setTheme theme st) = theme
     ∧ data_theme (setTheme theme st) = Some theme
     ∧ localStorage (setTheme theme st) !! "theme" = Some theme
     ∧ ∀ key, key ≠ "theme" →
         localStorage (setTheme theme st) !! key = localStorage st !! key)
  ∧ (currentTheme st = "light" → currentTheme (toggle st) = "dark")
  ∧ (currentTheme st ≠ "light" → currentTheme (toggle st) = "light")
  ∧ (is_light_or_dark (currentTheme st) →
     currentTheme (toggle (toggle st)) = currentTheme st).
Proof.
  split.
  { intros stored Hs Hne. unfold constructor, init. simpl.
    rewrite Hs. simpl. by rewrite bool_decide_eq_false_2. }
  split.
  { intros [H|H]; unfold constructor, init; simpl; by rewrite H. }
  repeat split.
  - intros Hin. unfold constructor, init, is_light_or_dark. simpl.
    repeat (apply elem_of_cons in Hin as [->|Hin]); simpl; auto.
    by apply elem_of_nil in Hin.
  - rewrite currentTheme_toggle. unfold is_light_or_dark.
    case_bool_decide; auto.
  - simpl. apply lookup_insert_eq.
  - intros key Hkey. simpl. by apply lookup_insert_ne.
  - intros H. rewrite currentTheme_toggle. by rewrite bool_decide_eq_true_2.
  - intros H. rewrite currentTheme_toggle. by rewrite bool_decide_eq_false_2.
  - intros [H|H]; rewrite !currentTheme_toggle, H; done.
Qed.

Lemma theme_store_witness :
  currentTheme (constructor None {[ "theme" := "dark" ]}) = "dark"
  ∧ currentTheme (constructor None {[ "theme" := "sepia" ]}) = "sepia"
  ∧ currentTheme (constructor None ∅) = "light"
  ∧ is_light_or_dark (currentTheme (constructor None ∅))
  ∧ currentTheme (toggle (constructor None ∅)) = "dark"
  ∧ currentTheme (toggle (toggle (constructor None ∅)))
    = currentTheme (constructor None ∅).
Proof.
  pose proof (theme_store None {[ "theme" := "dark" ]} "light"
                (constructor None ∅)) as (Hdark & _).
  pose proof (theme_store None {[ "theme" := "sepia" ]} "light"
                (constructor None ∅)) as (Hsepia & _).
  pose proof (theme_store None ∅ "light" (constructor None ∅))
    as (_ & Hdefault & Hnew & _ & _ & Hlight & _ & Htwice).
  split; [apply Hdark; [apply lookup_singleton_eq|done]|].
  split; [apply Hsepia; [apply lookup_singleton_eq|done]|].
  split; [apply Hdefault; by left|].
  split; [apply Hnew; by left|].
  split; [apply Hlight; apply Hdefault; by left|].
  apply Htwice. by left.
Defined.

(** C8 as stated fails: a stored preference that is neither ["light"] nor
    ["dark"] becomes the current theme, and two toggles do not give it
    back. *)
Lemma stored_theme_is_kept :
  currentTheme (constructor None Samples.foreign_store) = "auto"
  ∧ ¬ is_light_or_dark (currentTheme (constructor None Samples.foreign_store))
  ∧ currentTheme (toggle (toggle (constructor None Samples.foreign_store)))
    = "dark".
Proof.
  split; [by vm_compute|]. split; [|by vm_compute].
  assert (currentTheme (constructor None Samples.foreign_store) = "auto")
    as -> by by vm_compute.
  by intros [H|H].
Qed.

End ThemeTheorems.

(** ** The reveal animator *)

Module RevealTheorems.
Import DOM DOMFacts AnimationObserver.

(** *** Initialisation *)

Lemma observe_steps_elements n st i :
  elements (fold_left observe_step (seq 0 n) st) !! i
  = if decide (i < n)%nat then prepare i <$> elements st !! i
    else elements st !! i.
Proof.
  induction n as [|n IH]; [done|].
  rewrite seq_S, fold_left_app. simpl.
  rewrite list_lookup_alter.
  destruct (decide (n = i)) as [->|Hne]; rewrite IH;
    repeat case_decide; try lia; done.
Qed.

Lemma init_elements (animatedElements : list Element) i :
  elements (init animatedElements) !! i = prepare i <$> animatedElements !! i.
Proof.
  unfold init, observeElements. rewrite observe_steps_elements. simpl.
  case_decide as Hi; [done|].
  rewrite lookup_ge_None_2 by lia. done.
Qed.

(** *** The callback *)

Lemma inline_style_callback_entry st entry :
  inline_style <$> elements (callback_entry st entry)
  = inline_style <$> elements st.
Proof.
  unfold callback_entry. destruct (isIntersecting entry); [|done]. simpl.
  rewrite (list_fmap_alter _ (add_class "animate-in") id)
    by (by apply Forall_forall).
  by apply list_alter_id.
Qed.

Lemma inline_style_callback entries st :
  inline_style <$> elements (callback entries st)
  = inline_style <$> elements st.
Proof.
  unfold callback. revert st.
  induction entries as [|entry entries IH]; intros st; [done|].
  simpl. by rewrite IH, inline_style_callback_entry.
Qed.




(** *** The observed set only shrinks *)

Lemma observed_callback_entry st entry :
  observed (callback_entry st entry) ⊆ observed st.
Proof.
  unfold callback_entry. destruct (isIntersecting entry); simpl; [|done].
  by apply subseteq_difference_l.
Qed.

Lemma observed_callback entries st :
  observed (callback entries st) ⊆ observed st.
Proof.
  unfold callback. revert st.
  induction entries as [|entry entries IH]; intros st; [done|].
  simpl. etrans; [apply IH|apply observed_callback_entry].
Qed.

Lemma observed_run batches st : observed (run batches st) ⊆ observed st.
Proof.
  unfold run. revert st.
  induction batches as [|entries batches IH]; intros st; [done|].
  simpl. etrans; [apply IH|apply observed_callback].
Qed.

Lemma length_callback entries st :
  length (elements (callback entries st)) = length (elements st).
Proof.
  pose proof (inline_style_callback entries st) as H.
  apply (f_equal length) in H. by rewrite !length_fmap in H.
Qed.

(** *** Once triggered, always triggered *)

Lemma add_class_present tok el : tok ∈ classList (add_class tok el).
Proof. apply classList_add_present. Qed.

Lemma add_class_keeps tok tok' el :
  tok' ∈ classList el → tok' ∈ classList (add_class tok el).
Proof.
  intros H. unfold add_class, classList_add. simpl.
  case_bool_decide; [done|]. apply elem_of_app. by left.
Qed.

Lemma add_class_id tok el : tok ∈ classList el → add_class tok el = el.
Proof.
  intros H. destruct el as [o t r cl]. unfold add_class. simpl in *.
  by rewrite classList_add_id.
Qed.

Lemma triggered_callback_entry i st entry :
  triggered i st = true → triggered i (callback_entry st entry) = true.
Proof.
  unfold triggered, callback_entry.
  destruct (isIntersecting entry); [|done]. simpl.
  rewrite list_lookup_alter. case_decide as Ht; [subst i|done].
  destruct (elements st !! target entry) as [el|]; [|done]. simpl.
  unfold classList_contains. rewrite !bool_decide_eq_true.
  apply add_class_keeps.
Qed.

Lemma triggered_callback i entries st :
  triggered i st = true → triggered i (callback entries st) = true.
Proof.
  unfold callback. revert st.
  induction entries as [|entry entries IH]; intros st H; [done|].
  simpl. by apply IH, triggered_callback_entry.
Qed.

Lemma settled_after_report st entry :
  isIntersecting entry = true → settled (target entry) (callback_entry st entry).
Proof.
  intros He. unfold settled, callback_entry. rewrite He. simpl. split.
  - apply not_elem_of_difference. right. by apply elem_of_singleton.
  - intros el. rewrite list_lookup_alter_eq.
    destruct (elements st !! target entry) as [el0|]; [|done].
    simpl. intros [= <-]. apply add_class_present.
Qed.

Lemma settled_callback_entry i st entry :
  settled i st → settled i (callback_entry st entry).
Proof.
  intros [Hobs Hcl]. split.
  - intros H. by apply Hobs, (observed_callback_entry st entry).
  - unfold callback_entry. destruct (isIntersecting entry); [|done]. simpl.
    intros el. rewrite list_lookup_alter. case_decide as Ht; [subst i|by auto].
    destruct (elements st !! target entry) as [el0|] eqn:E; [|done].
    simpl. intros [= <-]. by apply add_class_keeps, Hcl.
Qed.

Lemma settled_callback i entries st :
  settled i st → settled i (callback entries st).
Proof.
  unfold callback. revert st.
  induction entries as [|entry entries IH]; intros st H; [done|].
  simpl. by apply IH, settled_callback_entry.
Qed.

Lemma settled_report_noop st entry :
  settled (target entry) st → callback_entry st entry = st.
Proof.
  intros [Hobs Hcl]. unfold callback_entry.
  destruct (isIntersecting entry); [|done].
  destruct st as [els obs]. simpl in *. f_equal.
  - apply list_eq. intros j. rewrite list_lookup_alter.
    case_decide as Hj; [subst j|done].
    destruct (els !! target entry) as [el|] eqn:E; [|done].
    simpl. f_equal. by apply add_class_id, Hcl.
  - apply difference_disjoint_L. by apply disjoint_singleton_r.
Qed.

Lemma settled_triggered i st :
  settled i st → (i < length (elements st))%nat → triggered i st = true.
Proof.
  intros [_ Hcl] Hi. unfold triggered.
  destruct (lookup_lt_is_Some_2 _ _ Hi) as [el Hel]. rewrite Hel.
  by apply bool_decide_eq_true_2, Hcl.
Qed.

(** *** Counting the transitions *)

Lemma transitions_step i s entries s' :
  transitions i (s :: trace entries s')
  = ((if negb (triggered i s) && triggered i s' then 1 else 0)
     + transitions i (trace entries s'))%nat.
Proof. by destruct entries. Qed.

Lemma transitions_triggered i entries st :
  triggered i st = true → transitions i (trace entries st) = 0.
Proof.
  revert st. induction entries as [|entry entries IH]; intros st H; [done|].
  change (trace (entry :: entries) st)
    with (st :: trace entries (callback_entry st entry)).
  rewrite transitions_step, H. simpl.
  by apply IH, triggered_callback_entry.
Qed.

Lemma transitions_at_most_once i entries st :
  (transitions i (trace entries st) ≤ 1)%nat.
Proof.
  revert st. induction entries as [|entry entries IH]; intros st; [simpl; lia|].
  change (trace (entry :: entries) st)
    with (st :: trace entries (callback_entry st entry)).
  rewrite transitions_step.
  destruct (triggered i (callback_entry st entry)) eqn:E.
  - rewrite (transitions_triggered _ _ _ E). destruct (negb _); simpl; lia.
  - rewrite andb_false_r. simpl. apply IH.
Qed.

(** C3: an element goes from pending to triggered at most once.  An entry
    reported as intersecting leaves its target carrying [animate-in] and out
    of the observed set; callbacks never add to the observed set; and
    reporting the same element again changes nothing at all, so it stays
    visible. *)
Theorem reveal_happens_once (st : State) (entries : list Entry) (i : nat) :
  (transitions i (trace entries st) ≤ 1)%nat
  ∧ observed (callback entries st) ⊆ observed st
  ∧ (∀ batches, observed (run batches st) ⊆ observed st)
  ∧ (∀ entry, entry ∈ entries → isIntersecting entry = true →
       (target entry ∉ observed (callback entries st))
       ∧ ((target entry < length (elements st))%nat →
          triggered (target entry) (callback entries st) = true))
  ∧ (triggered i st = true → triggered i (callback entries st) = true)
  ∧ (∀ entry, entry ∈ entries → isIntersecting entry = true →
       callback [entry] (callback entries st) = callback entries st).
Proof.
  assert (∀ entry, entry ∈ entries → isIntersecting entry = true →
            settled (target entry) (callback entries st)) as Hsettled.
  { intros entry Hin He.
    apply list_elem_of_split in Hin as (before & after & ->).
    unfold callback. rewrite fold_left_app. simpl.
    by apply settled_callback, settled_after_report. }
  split; [apply transitions_at_most_once|].
  split; [apply observed_callback|].
  split; [intros batches; apply observed_run|].
  split; [|split].
  - intros entry Hin He. destruct (Hsettled entry Hin He) as [Hobs Hcl].
    split; [done|]. intros Hlen. apply settled_triggered; [done|].
    by rewrite length_callback.
  - apply triggered_callback.
  - intros entry Hin He. simpl. by apply settled_report_noop, Hsettled.
Qed.

Lemma reveal_happens_once_witness :
  triggered 1 Samples.revealed_once = true
  ∧ (1 ∉ observed Samples.revealed_once)
  ∧ callback [Samples.first_report] Samples.revealed_once = Samples.revealed_once
  ∧ triggered 1 (callback [Samples.first_report] Samples.revealed_once) = true.
Proof.
  pose proof (reveal_happens_once (init Samples.three_cards)
                [Samples.first_report] 1)
    as (_ & _ & _ & Hfirst & _ & Hagain).
  pose proof (reveal_happens_once Samples.revealed_once
                [Samples.first_report] 1)
    as (_ & _ & _ & _ & Hstay & _).
  assert (Samples.first_report ∈ [Samples.first_report]) as Hin by by left.
  destruct (Hfirst Samples.first_report Hin eq_refl) as [Hobs Htrig].
  assert (triggered 1 Samples.revealed_once = true) as H1.
  { apply Htrig. vm_compute. lia. }
  split; [done|]. split; [done|]. split; [by apply Hagain|]. by apply Hstay.
Defined.

End RevealTheorems.

(** ** The contact form *)

Module ContactFormTheorems.
Import DOM DOMFacts ContactFormManager.

(** *** Validation *)

Lemma js_not_true v : js_not v = true ↔ v = None ∨ v = Some "".
Proof.
  destruct v as [s|]; simpl.
  - rewrite bool_decide_eq_true. split; [intros ->; by right|].
    intros [H|H]; congruence.
  - split; [by left|done].
Qed.

Lemma some_empty_fails st :
  some_empty st →
  js_not (formData_get "name" st) || js_not (formData_get "email" st)
  || js_not (formData_get "message" st) = true.
Proof.
  intros (key & Hkey & Hempty). apply js_not_true in Hempty.
  repeat (apply elem_of_cons in Hkey as [->|Hkey]);
    [| | |by apply elem_of_nil in Hkey];
    rewrite Hempty; by rewrite ?orb_true_r.
Qed.

Lemma all_filled_passes st :
  all_filled st →
  js_not (formData_get "name" st) || js_not (formData_get "email" st)
  || js_not (formData_get "message" st) = false.
Proof.
  intros (n & e & m & -> & -> & -> & Hn & He & Hm). simpl.
  by rewrite !bool_decide_eq_false_2.
Qed.

(** *** The two helpers on a complete page *)

Lemma showToast_complete message type st :
  toast_complete st →
  ∃ t, toast st = Some t
       ∧ showToast message type st
         = (setTimeout HideToast 5000
              (with_toast {| toastMessage := Some message;
                             toastIcon := Some (icon_of type);
                             toastClasses := classList_add "show" (toastClasses t) |}
                          st), Normal).
Proof.
  intros (t & Ht & [m Hm] & [i Hi]). exists t. split; [done|].
  unfold showToast. by rewrite Ht, Hm, Hi.
Qed.

Lemma setLoadingState_complete loading st :
  button_complete st →
  setLoadingState loading st
  = (with_button {| btnText := Some (if loading then "none" else "inline");
                    btnLoading := Some (if loading then "inline" else "none");
                    disabled := loading |} st, Normal).
Proof.
  intros (b & Hb & [x Hx] & [y Hy]).
  unfold setLoadingState. by rewrite Hb, Hx, Hy.
Qed.

Lemma toast_shows_after message type t st :
  toast_shows message type
    (setTimeout HideToast 5000
       (with_toast {| toastMessage := Some message;
                      toastIcon := Some (icon_of type);
                      toastClasses := classList_add "show" (toastClasses t) |}
                   st)).
Proof.
  eexists. split; [done|]. repeat split. simpl. apply classList_add_present.
Qed.

(** [showToast] never touches the button, whether it completes or throws. *)
Lemma submitBtn_showToast message type st :
  submitBtn (showToast message type st).1 = submitBtn st.
Proof.
  unfold showToast. destruct (toast st) as [t|]; [|done].
  destruct (toastMessage t); [|done]. by destruct (toastIcon t).
Qed.

Lemma button_complete_ext st st' :
  submitBtn st' = submitBtn st → button_complete st → button_complete st'.
Proof. intros H (b & Hb & Hc). exists b. by rewrite H. Qed.

(** *** The continuation after the [await] *)

Lemma resume_button r st :
  button_complete st → loading_cleared (resume r st).1.
Proof.
  intros Hb. unfold resume, resume_with, try_catch_finally.
  destruct (try_block r st) as [st1 c1] eqn:Hbody.
  assert (submitBtn st1 = submitBtn st) as H1.
  { unfold try_block, await, seq, throw, form_reset in Hbody.
    destruct r as [|e]; [|by injection Hbody as <- _].
    pose proof (submitBtn_showToast msg_sent "success" st) as Hs.
    destruct (showToast msg_sent "success" st) as [sa [|ea]];
      injection Hbody as <- _; done. }
  set (caught := match c1 with Normal => _ | Throw e => _ end).
  assert (submitBtn caught.1 = submitBtn st) as H2.
  { subst caught. destruct c1; [done|]. unfold catch_block.
    by rewrite submitBtn_showToast. }
  destruct caught as [st2 c2]. simpl in H2.
  rewrite (setLoadingState_complete false st2)
    by by apply (button_complete_ext st).
  by destruct c2.
Qed.

Lemma resume_with_fulfilled handler st :
  button_complete st → toast_complete st →
  ∃ t, toast st = Some t
       ∧ resume_with handler Fulfilled st
         = (with_button {| btnText := Some "inline"; btnLoading := Some "none";
                           disabled := false |}
              (with_form (reset_control <$> form st)
                 (setTimeout HideToast 5000
                    (with_toast {| toastMessage := Some msg_sent;
                                   toastIcon := Some (icon_of "success");
                                   toastClasses :=
                                     classList_add "show" (toastClasses t) |}
                                st))), Normal).
Proof.
  intros Hb Ht. destruct (showToast_complete msg_sent "success" st Ht)
    as (t & Htoast & Hshow).
  exists t. split; [done|].
  unfold resume_with, try_catch_finally, try_block, await, seq, form_reset.
  rewrite Hshow.
  rewrite setLoadingState_complete; [done|].
  by apply (button_complete_ext st).
Qed.

Lemma resume_fulfilled st :
  button_complete st → toast_complete st →
  ∃ t, toast st = Some t
       ∧ resume Fulfilled st
         = (with_button {| btnText := Some "inline"; btnLoading := Some "none";
                           disabled := false |}
              (with_form (reset_control <$> form st)
                 (setTimeout HideToast 5000
                    (with_toast {| toastMessage := Some msg_sent;
                                   toastIcon := Some (icon_of "success");
                                   toastClasses :=
                                     classList_add "show" (toastClasses t) |}
                                st))), Normal).
Proof. apply resume_with_fulfilled. Qed.


(** *** The handler up to the [await] *)

Lemma start_filled st :
  button_complete st → all_filled st →
  ∃ data,
    start st
    = (submitForm data
         (with_button {| btnText := Some "none"; btnLoading := Some "inline";
                         disabled := true |} st), Awaiting data).
Proof.
  intros Hb Hf. unfold start. rewrite (all_filled_passes st Hf).
  rewrite (setLoadingState_complete true st Hb). by eexists.
Qed.




Lemma sample_button_complete : button_complete Samples.filled_form.
Proof. eexists. split; [done|]. by split; eexists. Qed.

Lemma sample_toast_complete : toast_complete Samples.filled_form.
Proof. eexists. split; [done|]. by split; eexists. Qed.

Lemma sample_all_filled : all_filled Samples.filled_form.
Proof.
  exists "Ana", "ana@example.org", "Hola".
  repeat split; by vm_compute.
Qed.




(** *** The simulated submission *)

Lemma handleFormSubmission_filled st :
  button_complete st → toast_complete st → all_filled st →
  ∃ t data,
    toast st = Some t
    ∧ handleFormSubmission st
      = (with_button {| btnText := Some "inline"; btnLoading := Some "none";
                        disabled := false |}
           (with_form (reset_control <$> form st)
              (setTimeout HideToast 5000
                 (with_toast {| toastMessage := Some msg_sent;
                                toastIcon := Some (icon_of "success");
                                toastClasses :=
                                  classList_add "show" (toastClasses t) |}
                    {| form := form st; submitBtn := submitBtn st;
                       toast := toast st; timers := timers st;
                       console := console st ++ [data] |}))), Normal).
Proof.
  intros Hb Ht Hf. destruct (start_filled st Hb Hf) as (data & Hstart).
  destruct Ht as (t & Htoast & Hm & Hi).
  exists t, data. split; [done|].
  unfold handleFormSubmission. rewrite Hstart.
  unfold fire, submitForm, setTimeout. simpl.
  rewrite length_app. simpl.
  replace (length (timers st) + 1 - 1)%nat with (length (timers st)) by lia.
  rewrite list_lookup_middle by done. rewrite delete_middle, app_nil_r.
  unfold submission_timer. simpl.
  match goal with |- resume Fulfilled ?s = _ =>
    destruct (resume_fulfilled s) as (t' & Ht' & ->) end.
  - eexists. split; [done|]. by split; eexists.
  - by exists t.
  - simpl in Ht'. rewrite Htoast in Ht'. by injection Ht' as <-.
Qed.






(** C10: once the handler has shown the loading state and awaits the
    promise, the continuation ends with the button enabled, the loading label
    hidden and the text shown, whether the promise was fulfilled or rejected,
    whether or not the toast could be shown, and whatever happened to the
    rest of the page in between. *)
Theorem loading_state_always_cleared
    (st st1 st2 : State) (data : FormData) (r : Settlement) :
  start st = (st1, Awaiting data) →
  submitBtn st2 = submitBtn st1 →
  loading_shown st1 ∧ loading_cleared (resume r st2).1.
Proof.
  intros Hstart Hsame. unfold start in Hstart.
  destruct (js_not _ || js_not _ || js_not _).
  { by destruct (showToast _ _ _). }
  unfold setLoadingState in Hstart.
  destruct (submitBtn st) as [b|] eqn:Hb; [|done].
  destruct (btnText b) eqn:Hx; [|done].
  destruct (btnLoading b) eqn:Hy; [|done].
  injection Hstart as <- _. split; [done|].
  apply resume_button. eexists. split; [by rewrite Hsame|]. by split; eexists.
Qed.

Lemma loading_state_always_cleared_witness :
  start Samples.filled_form
  = ((start Samples.filled_form).1, Awaiting Samples.filled_data)
  ∧ loading_shown (start Samples.filled_form).1
  ∧ loading_cleared (resume Fulfilled (start Samples.filled_form).1).1
  ∧ loading_cleared
      (resume (Rejected (Failure "offline")) (start Samples.filled_form).1).1.
Proof.
  assert (start Samples.filled_form
          = ((start Samples.filled_form).1, Awaiting Samples.filled_data))
    as Hstart by by vm_compute.
  split; [exact Hstart|]. split; [|split].
  - apply (loading_state_always_cleared _ _ _ _ Fulfilled Hstart eq_refl).
  - apply (loading_state_always_cleared _ _ _ _ Fulfilled Hstart eq_refl).
  - apply (loading_state_always_cleared _ _ _ _ (Rejected (Failure "offline"))
             Hstart eq_refl).
Defined.

End ContactFormTheorems.

(** ** The skill bars on resize *)

Module SkillsTheorems.
Import DOM SkillsAnimator.

Section Debounced.
Context {S : Type}.
Variable func : S → S.
Variable wait : nat.

(** While the events keep coming quickly the timer is only pushed back. *)
Lemma calls_postpone (prev : nat) (rest : list nat) (s : S) :
  quick wait prev rest →
  fold_left (call_at func wait) rest (Some (prev + wait)%nat, s)
  = (Some (default prev (last rest) + wait)%nat, s).
Proof.
  revert prev. induction rest as [|t rest IH]; intros prev Hq; [done|].
  destruct Hq as [[Hle Hlt] Hq]. simpl.
  unfold call_at at 2, elapse, executedFunction. simpl.
  rewrite bool_decide_eq_false_2 by lia. simpl.
  rewrite IH by done. do 2 f_equal.
  destruct rest as [|t' rest]; [done|].
  rewrite (last_cons_cons t).
  destruct (last (t' :: rest)) eqn:E; [done|].
  by apply last_None in E.
Qed.

(** A burst followed by a quiet period of [wait] runs [func] once. *)
Lemma burst_runs_once (first : nat) (rest : list nat) (stop : nat) (s : S) :
  quick wait first rest →
  (default first (last rest) + wait ≤ stop)%nat →
  burst func wait (first :: rest) stop s = (None, func s).
Proof.
  intros Hq Hstop. unfold burst. simpl.
  unfold call_at at 2, elapse, executedFunction. simpl.
  rewrite calls_postpone by done.
  unfold elapse. simpl. by rewrite bool_decide_eq_true_2.
Qed.

End Debounced.

Lemma resize_bar_lookup css st i bar :
  skillBars st !! i = Some bar →
  skillBars (resize_callback css st) !! i = Some (resize_bar css bar).
Proof. intros H. unfold resize_callback. simpl. by rewrite list_lookup_fmap, H. Qed.

(** C6, as the listener has it: after a burst of resize events and 250 ms of
    quiet the callback runs once; it assigns [level + '%'] to the width of
    every bar whose inline width is not the text [0%] and leaves a bar whose
    inline width is [0%] as it is; the flag and the timers are not touched. *)
Theorem resize_reapplies_widths
    (css : string → option string) (st : State)
    (first : nat) (rest : list nat) (stop : nat) :
  (quick 250 first rest →
   (default first (last rest) + 250 ≤ stop)%nat →
   on_resize_burst css (first :: rest) stop st = (None, resize_callback css st))
  ∧ animated (resize_callback css st) = animated st
  ∧ timers (resize_callback css st) = timers st
  ∧ (∀ i bar, skillBars st !! i = Some bar →
       skillBars (resize_callback css st) !! i
       = Some (if bool_decide (width bar = "0%") then bar
               else set_width css (js_string (data_level bar) ++ "%") bar))
  ∧ (∀ i bar level,
       skillBars st !! i = Some bar → width bar ≠ "0%" →
       data_level bar = Some level → css (level ++ "%") = Some (level ++ "%") →
       skillBars (resize_callback css st) !! i
       = Some {| data_level := Some level; width := level ++ "%" |}).
Proof.
  split; [intros Hq Hstop; by apply burst_runs_once|].
  split; [done|]. split; [done|]. split.
  - intros i bar Hi. rewrite (resize_bar_lookup _ _ _ _ Hi). f_equal.
    unfold resize_bar. by repeat case_bool_decide.
  - intros i bar level Hi Hw Hl Hcss.
    rewrite (resize_bar_lookup _ _ _ _ Hi). f_equal.
    unfold resize_bar, set_width. rewrite bool_decide_eq_true_2 by done.
    rewrite Hl. simpl. by rewrite Hcss.
Qed.

Lemma resize_reapplies_widths_witness :
  on_resize_burst css_percentage [0; 100; 300] 550 Samples.two_bars
  = (None, resize_callback css_percentage Samples.two_bars)
  ∧ skillBars (resize_callback css_percentage Samples.two_bars) !! 0
    = Some {| data_level := Some "80"; width := "0%" |}
  ∧ skillBars (resize_callback css_percentage Samples.two_bars) !! 1
    = Some {| data_level := Some "75"; width := "75%" |}.
Proof.
  pose proof (resize_reapplies_widths css_percentage Samples.two_bars
                0 [100; 300] 550) as (Hburst & _ & _ & Hbar & Hlevel).
  split; [|split].
  - apply Hburst; [|vm_compute; lia].
    simpl. repeat split; lia.
  - apply (Hbar 0 {| data_level := Some "80"; width := "0%" |}).
    reflexivity.
  - apply (Hlevel 1 {| data_level := Some "75"; width := "60%" |} "75").
    + reflexivity.
    + simpl. discriminate.
    + reflexivity.
    + by vm_compute.
Defined.

(** The ordinary course: the section scrolls into view, the timer of the bar
    fires, and a later resize assigns the width the bar already has. *)
Example reveal_then_resize :
  fire css_percentage 0
    (on_scroll Samples.desktop (Some Samples.skills_in_view)
       Samples.fresh_skills)
  = {| animated := true;
       skillBars := [ {| data_level := Some "90"; width := "90%" |} ];
       timers := [] |}
  ∧ resize_callback css_percentage
      {| animated := true;
         skillBars := [ {| data_level := Some "90"; width := "90%" |} ];
         timers := [] |}
    = {| animated := true;
         skillBars := [ {| data_level := Some "90"; width := "90%" |} ];
         timers := [] |}.
Proof. by vm_compute. Qed.

(** C6 as stated fails: with nothing animated yet (the flag unset, no timer
    set) a bar with no inline width is given its level by the resize
    callback. *)
Lemma resize_fills_unrevealed_bar :
  animated Samples.fresh_skills = false
  ∧ timers Samples.fresh_skills = []
  ∧ skillBars Samples.fresh_skills
    = [ {| data_level := Some "90"; width := "" |} ]
  ∧ on_resize_burst css_percentage [0] 250 Samples.fresh_skills
    = (None, {| animated := false;
                skillBars := [ {| data_level := Some "90"; width := "90%" |} ];
                timers := [] |}).
Proof. by vm_compute. Qed.

End SkillsTheorems.

(** * Further properties of the script *)

(** ** The theme across clicks and page loads *)

Module ThemeExtras.
Import DOM ThemeManager ThemeTheorems.

Lemma clicks_succ n st : clicks (S n) st = toggle (clicks n st).
Proof. done. Qed.

Lemma js_or_nonempty v d : d ≠ "" → js_or v d ≠ "".
Proof.
  intros Hd. destruct v as [s|]; simpl; [|done].
  by case_bool_decide.
Qed.

Lemma in_step_constructor attr store : in_step (constructor attr store).
Proof.
  unfold in_step, constructor, init. simpl.
  split; [apply lookup_insert_eq|]. split; [done|].
  by apply js_or_nonempty.
Qed.

Lemma in_step_toggle st : in_step (toggle st).
Proof.
  unfold in_step, toggle. simpl.
  split; [apply lookup_insert_eq|]. split; [done|].
  by case_bool_decide.
Qed.

Lemma in_step_clicks n attr store : in_step (clicks n (constructor attr store)).
Proof.
  destruct n as [|n]; [apply in_step_constructor|].
  rewrite clicks_succ. apply in_step_toggle.
Qed.

Lemma other_keys_clicks n st key :
  key ≠ "theme" → localStorage (clicks n st) !! key = localStorage st !! key.
Proof.
  intros Hkey. induction n as [|n IH]; [done|].
  rewrite clicks_succ. unfold toggle, setTheme. simpl.
  by rewrite lookup_insert_ne.
Qed.

Lemma reload_in_step attr st : in_step st → reload attr st = st.
Proof.
  intros (Hstore & Hattr & Hne). destruct st as [theme a store].
  simpl in *. unfold reload, constructor, init, setTheme. simpl.
  rewrite Hstore. simpl. rewrite bool_decide_eq_false_2 by done.
  f_equal; [done|]. by apply insert_id.
Qed.

(** From the construction of the manager on, and after any number of clicks,
    the [data-theme] attribute and the stored preference are both the current
    theme, the current theme is never the empty string, and no other key of
    the storage has been written. *)
Theorem theme_kept_in_step
    (attr : option string) (store : gmap string string) (n : nat) :
  data_theme (clicks n (constructor attr store))
  = Some (currentTheme (clicks n (constructor attr store)))
  ∧ localStorage (clicks n (constructor attr store)) !! "theme"
    = Some (currentTheme (clicks n (constructor attr store)))
  ∧ currentTheme (clicks n (constructor attr store)) ≠ ""
  ∧ ∀ key, key ≠ "theme" →
      localStorage (clicks n (constructor attr store)) !! key = store !! key.
Proof.
  destruct (in_step_clicks n attr store) as (Hstore & Hattr & Hne).
  split; [done|]. split; [done|]. split; [done|].
  intros key Hkey. rewrite other_keys_clicks by done.
  unfold constructor, init, setTheme. simpl. by rewrite lookup_insert_ne.
Qed.

(** Loading the page again, whatever attribute the fresh document has, builds
    a manager in exactly the state the previous one was left in: the
    preference survives the reload. *)
Theorem theme_survives_reload
    (attr attr' : option string) (store : gmap string string) (n : nat) :
  reload attr' (clicks n (constructor attr store))
  = clicks n (constructor attr store).
Proof. apply reload_in_step, in_step_clicks. Qed.

(** When the theme is ["light"] or ["dark"], [n] clicks leave it as it is for
    even [n] and give the other one for odd [n]. *)
Theorem clicks_alternate (st : State) (n : nat) :
  is_light_or_dark (currentTheme st) →
  currentTheme (clicks n st)
  = if Nat.even n then currentTheme st else currentTheme (toggle st).
Proof.
  intros Hld.
  assert (currentTheme (clicks n st)
          = (if Nat.even n then currentTheme st else currentTheme (toggle st))
          ∧ currentTheme (clicks (S n) st)
            = (if Nat.even n then currentTheme (toggle st) else currentTheme st))
    as [H _]; [|done].
  induction n as [|n [IH1 IH2]]; [done|].
  split.
  - rewrite IH2. rewrite Nat.even_succ, <- Nat.negb_even.
    by destruct (Nat.even n).
  - rewrite clicks_succ, currentTheme_toggle, IH2.
    rewrite Nat.even_succ, <- Nat.negb_even.
    destruct (Nat.even n); simpl; rewrite ?currentTheme_toggle;
      destruct Hld as [-> | ->]; done.
Qed.

Lemma clicks_alternate_witness :
  currentTheme (clicks 3 (constructor None ∅)) = "dark"
  ∧ currentTheme (clicks 4 (constructor None ∅)) = "light".
Proof.
  split.
  - etrans; [apply (clicks_alternate (constructor None ∅) 3); by left|].
    by vm_compute.
  - etrans; [apply (clicks_alternate (constructor None ∅) 4); by left|].
    by vm_compute.
Defined.

End ThemeExtras.

(** ** The skill bars from scroll to resize *)

Module SkillsExtras.
Import DOM SkillsAnimator.

Lemma in_viewport_bounds w rect :
  isElementInViewport w rect = true →
  (0 <= rect_top rect
   ∧ 0 <= rect_left rect
   ∧ rect_bottom rect <= js_or_num (innerHeight w) (clientHeight w)
   ∧ rect_right rect <= js_or_num (innerWidth w) (clientWidth w))%Q.
Proof.
  unfold isElementInViewport. rewrite !andb_true_iff, !Qle_bool_iff. tauto.
Qed.

(** A section that is taller than the window, or whose top edge is above the
    window, is not in the viewport, and the scroll listener then leaves
    everything as it is: the bars are not animated. *)
Theorem tall_section_never_animates (w : Window) (rect : Rect) (st : State) :
  (js_or_num (innerHeight w) (clientHeight w) < rect_bottom rect - rect_top rect
   ∨ rect_top rect < 0)%Q →
  isElementInViewport w rect = false ∧ on_scroll w (Some rect) st = st.
Proof.
  intros Htall.
  assert (isElementInViewport w rect = false) as Hout.
  { destruct (isElementInViewport w rect) eqn:E; [|done].
    apply in_viewport_bounds in E as (Htop & _ & Hbottom & _).
    destruct Htall as [Htall|Htall]; lra. }
  split; [done|]. unfold on_scroll. rewrite Hout. by destruct (negb _).
Qed.

Lemma tall_section_never_animates_witness :
  isElementInViewport Samples.desktop Samples.tall_skills = false
  ∧ on_scroll Samples.desktop (Some Samples.tall_skills) Samples.fresh_skills
    = Samples.fresh_skills.
Proof.
  apply (tall_section_never_animates Samples.desktop Samples.tall_skills).
  left. by vm_compute.
Defined.

(** When the section comes into view for the first time, the listener sets
    the flag, leaves the bars as they are and appends one timer per bar, the
    one of bar [i] due after [i * 100] ms and holding the level the bar has
    now; from then on no scroll event changes anything. *)
Theorem scroll_animates_once (w : Window) (rect : Rect) (st : State) :
  animated st = false →
  isElementInViewport w rect = true →
  animated (on_scroll w (Some rect) st) = true
  ∧ skillBars (on_scroll w (Some rect) st) = skillBars st
  ∧ length (timers (on_scroll w (Some rect) st))
    = (length (timers st) + length (skillBars st))%nat
  ∧ (∀ k t, timers st !! k = Some t →
       timers (on_scroll w (Some rect) st) !! k = Some t)
  ∧ (∀ i bar, skillBars st !! i = Some bar →
       timers (on_scroll w (Some rect) st) !! (length (timers st) + i)%nat
       = Some {| delay := i * 100; target := i; level := data_level bar |})
  ∧ (∀ w' skills',
       on_scroll w' skills' (on_scroll w (Some rect) st)
       = on_scroll w (Some rect) st).
Proof.
  intros Hfresh Hin. unfold on_scroll at 1 2 3 4 5.
  rewrite Hfresh, Hin. simpl.
  split; [done|]. split; [done|].
  split; [by rewrite length_app, length_imap|]. split; [|split].
  - intros k t Hk. by apply lookup_app_l_Some.
  - intros i bar Hi. rewrite lookup_app_r by lia.
    replace (length (timers st) + i - length (timers st))%nat with i by lia.
    by rewrite list_lookup_imap, Hi.
  - intros w' skills'. unfold on_scroll. rewrite Hfresh, Hin. done.
Qed.

Lemma scroll_animates_once_witness :
  animated (on_scroll Samples.desktop (Some Samples.skills_in_view)
              Samples.fresh_skills) = true
  ∧ timers (on_scroll Samples.desktop (Some Samples.skills_in_view)
              Samples.fresh_skills) !! 0
    = Some {| delay := 0; target := 0; level := Some "90" |}.
Proof.
  pose proof (scroll_animates_once Samples.desktop Samples.skills_in_view
                Samples.fresh_skills eq_refl eq_refl)
    as (Hflag & _ & _ & _ & Htimer & _).
  split; [exact Hflag|].
  apply (Htimer 0 {| data_level := Some "90"; width := "" |}). reflexivity.
Defined.

(** *** The timers of the bars *)

Lemma fire_in_order css (post pre : list SkillBar) (a : bool) :
  Nat.iter (length post) (fire css 0)
    {| animated := a;
       skillBars := pre ++ post;
       timers := imap (λ i bar, {| delay := (length pre + i) * 100;
                                   target := length pre + i;
                                   level := data_level bar |}) post |}
  = {| animated := a;
       skillBars := pre ++ (reveal_bar css <$> post);
       timers := [] |}.
Proof.
  revert pre. induction post as [|b post IH]; intros pre.
  { simpl. by rewrite !app_nil_r. }
  simpl length. rewrite Nat.iter_succ_r.
  unfold fire at 2. simpl.
  rewrite alter_app_r. simpl.
  specialize (IH (pre ++ [reveal_bar css b])%list).
  rewrite <- (app_assoc pre [reveal_bar css b] post) in IH. simpl in IH.
  rewrite <- (app_assoc pre [reveal_bar css b]) in IH. simpl in IH.
  etrans; [|etrans; [exact IH|done]].
  f_equal. unfold reveal_bar. f_equal.
  apply imap_ext. intros i bar _. simpl.
  rewrite length_app. simpl.
  replace (length pre + 1 + i)%nat with (length pre + S i)%nat by lia. done.
Qed.

(** After the section has come into view on a page with no timer pending,
    running the timers in the order of their delays gives every bar the width
    [level + '%'] of its own level (where the style takes that text) and
    leaves no timer behind. *)
Theorem bars_revealed_in_turn
    (css : string → option string) (w : Window) (rect : Rect) (st : State) :
  animated st = false →
  timers st = [] →
  isElementInViewport w rect = true →
  fire_all css (on_scroll w (Some rect) st)
  = {| animated := true;
       skillBars := reveal_bar css <$> skillBars st;
       timers := [] |}.
Proof.
  intros Hfresh Hnone Hin. unfold fire_all, on_scroll.
  rewrite Hfresh, Hin. simpl. rewrite Hnone. simpl.
  rewrite length_imap.
  apply (fire_in_order css (skillBars st) [] true).
Qed.

Lemma bars_revealed_in_turn_witness :
  fire_all css_percentage
    (on_scroll Samples.desktop (Some Samples.skills_in_view) Samples.three_bars)
  = {| animated := true;
       skillBars := reveal_bar css_percentage <$> skillBars Samples.three_bars;
       timers := [] |}
  ∧ width <$> (reveal_bar css_percentage <$> skillBars Samples.three_bars)
    = ["90%"; "75%"; "0%"].
Proof.
  split; [|by vm_compute].
  apply (bars_revealed_in_turn css_percentage Samples.desktop
           Samples.skills_in_view Samples.three_bars); reflexivity.
Defined.

Lemma resize_bar_revealed css bar :
  resize_bar css (reveal_bar css bar) = reveal_bar css bar.
Proof.
  unfold reveal_bar, set_width.
  destruct (css _) as [w'|] eqn:E.
  - unfold resize_bar, set_width. simpl. rewrite E. by case_bool_decide.
  - unfold resize_bar, set_width. rewrite E. by case_bool_decide.
Qed.

Lemma resize_bar_idem css bar :
  resize_bar css (resize_bar css bar) = resize_bar css bar.
Proof.
  unfold resize_bar at 2 3. case_bool_decide as Hw.
  - apply resize_bar_revealed.
  - unfold resize_bar. cbv zeta. by case_bool_decide.
Qed.

(** A resize after the bars have been revealed changes nothing, and a second
    resize never changes what the first one left. *)
Theorem resize_settles (css : string → option string) (st : State) :
  resize_callback css (resize_callback css st) = resize_callback css st
  ∧ resize_callback css
      {| animated := animated st;
         skillBars := reveal_bar css <$> skillBars st;
         timers := timers st |}
    = {| animated := animated st;
         skillBars := reveal_bar css <$> skillBars st;
         timers := timers st |}.
Proof.
  unfold resize_callback. simpl. split; f_equal.
  - rewrite <- list_fmap_compose. apply list_fmap_ext.
    intros i bar _. apply resize_bar_idem.
  - rewrite <- list_fmap_compose. apply list_fmap_ext.
    intros i bar _. apply resize_bar_revealed.
Qed.

(** *** [debounce] *)

Section Debounced.
Context {S : Type}.
Variable func : S → S.
Variable wait : nat.

Lemma calls_run_each (prev : nat) (rest : list nat) (s : S) :
  spaced wait prev rest →
  fold_left (call_at func wait) rest (Some (prev + wait)%nat, s)
  = (Some (default prev (last rest) + wait)%nat,
     Nat.iter (length rest) func s).
Proof.
  revert prev s. induction rest as [|t rest IH]; intros prev s Hs; [done|].
  destruct Hs as [Hle Hs]. simpl fold_left.
  unfold call_at at 2, elapse, executedFunction. simpl.
  rewrite bool_decide_eq_true_2 by lia. simpl.
  rewrite IH by done. f_equal.
  - do 2 f_equal.
    destruct rest as [|t' rest]; [done|].
    rewrite (last_cons_cons t).
    destruct (last (t' :: rest)) eqn:E; [done|].
    by apply last_None in E.
  - exact (eq_sym (Nat.iter_succ_r (length rest) func s)).
Qed.

(** Calls that are more than [wait] apart are not merged: once [wait] has
    passed after the last one, [func] has run once for every call. *)
Theorem debounce_runs_spaced_calls
    (first : nat) (rest : list nat) (stop : nat) (s : S) :
  spaced wait first rest →
  (default first (last rest) + wait ≤ stop)%nat →
  burst func wait (first :: rest) stop s
  = (None, Nat.iter (Datatypes.S (length rest)) func s).
Proof.
  intros Hs Hstop. unfold burst. simpl fold_left.
  unfold call_at at 2, elapse, executedFunction. simpl.
  rewrite calls_run_each by done.
  unfold elapse. simpl. by rewrite bool_decide_eq_true_2.
Qed.

(** While calls keep coming less than [wait] apart, and until [wait] has
    passed after the last of them, [func] has not run; the timer is due
    [wait] after the last call. *)
Theorem debounce_holds_back
    (first : nat) (rest : list nat) (stop : nat) (s : S) :
  quick wait first rest →
  (stop < default first (last rest) + wait)%nat →
  burst func wait (first :: rest) stop s
  = (Some (default first (last rest) + wait)%nat, s).
Proof.
  intros Hq Hstop. unfold burst. simpl fold_left.
  unfold call_at at 2, elapse, executedFunction. simpl.
  rewrite SkillsTheorems.calls_postpone by done.
  unfold elapse. simpl. by rewrite bool_decide_eq_false_2 by lia.
Qed.

End Debounced.

Lemma debounce_runs_spaced_calls_witness :
  burst Datatypes.S 250 [0; 300; 900] 1150 0 = (None, 3).
Proof.
  apply (debounce_runs_spaced_calls Datatypes.S 250 0 [300; 900] 1150 0).
  - simpl. lia.
  - simpl. lia.
Defined.

Lemma debounce_holds_back_witness :
  burst Datatypes.S 250 [0; 100; 300] 549 0 = (Some 550, 0).
Proof.
  apply (debounce_holds_back Datatypes.S 250 0 [100; 300] 549 0).
  - simpl. lia.
  - simpl. lia.
Defined.

End SkillsExtras.

(** ** The contact form: validation, missing elements, toasts *)

Module ContactFormExtras.
Import DOM DOMFacts ContactFormManager ContactFormTheorems.

Lemma js_not_false v : js_not v = false ↔ ∃ s, v = Some s ∧ s ≠ "".
Proof.
  destruct v as [s|]; simpl.
  - rewrite bool_decide_eq_false. split; [by exists s|].
    by intros (s' & [= <-] & H).
  - split; [done|]. by intros (s & H & _).
Qed.

Lemma validation_passes st :
  js_not (formData_get "name" st) || js_not (formData_get "email" st)
  || js_not (formData_get "message" st) = false →
  all_filled st.
Proof.
  rewrite !orb_false_iff. intros [[Hn He] Hm].
  apply js_not_false in Hn as (n & Hn & Hn').
  apply js_not_false in He as (e & He & He').
  apply js_not_false in Hm as (m & Hm & Hm').
  by exists n, e, m.
Qed.

Lemma setLoadingState_normal loading st st' :
  setLoadingState loading st = (st', Normal) → button_complete st.
Proof.
  unfold setLoadingState. destruct (submitBtn st) as [b|] eqn:Hb; [|done].
  destruct (btnText b) eqn:Hx; [|done].
  destruct (btnLoading b) eqn:Hy; [|done].
  intros _. exists b. split; [done|]. by split; eexists.
Qed.

(** The handler sets the timer and waits exactly when the three fields are
    filled and the button has its two children; what it will log and submit
    is what the fields held at that moment. *)
Theorem start_awaits_iff (st : State) :
  ((∃ st1 data, start st = (st1, Awaiting data))
   ↔ all_filled st ∧ button_complete st)
  ∧ (∀ st1 data, start st = (st1, Awaiting data) →
       formData_get "name" st = Some (fd_name data)
       ∧ formData_get "email" st = Some (fd_email data)
       ∧ formData_get "message" st = Some (fd_message data)
       ∧ timers st1 = (timers st ++ [(2000, SubmissionDone data)])%list
       ∧ console st1 = console st).
Proof.
  split; [split|].
  - intros (st1 & data & Hstart). unfold start in Hstart.
    destruct (js_not _ || js_not _ || js_not _) eqn:Hv.
    { by destruct (showToast _ _ _). }
    split; [by apply validation_passes|].
    destruct (setLoadingState true st) as [st' [|e]] eqn:Hl; [|done].
    by apply (setLoadingState_normal true st st').
  - intros [Hf Hb]. destruct (start_filled st Hb Hf) as (data & Hstart).
    by eexists _, data.
  - intros st1 data Hstart. unfold start in Hstart.
    destruct (js_not _ || js_not _ || js_not _) eqn:Hv.
    { by destruct (showToast _ _ _). }
    apply validation_passes in Hv as (n & e & m & Hn & He & Hm & _).
    rewrite Hn, He, Hm in Hstart. simpl in Hstart.
    unfold setLoadingState in Hstart.
    destruct (submitBtn st) as [b|]; [|done].
    destruct (btnText b); [|done]. destruct (btnLoading b); [|done].
    injection Hstart as <- <-. by rewrite Hn, He, Hm.
Qed.

(** On a page without [#toast], or whose toast has no [.toast-message], a
    submission with an empty field throws a [TypeError] and changes nothing:
    no message is shown and no timer is set. *)
Theorem invalid_form_without_toast (st : State) :
  some_empty st →
  (toast st = None ∨ ∃ t, toast st = Some t ∧ toastMessage t = None) →
  start st = (st, Returned (Throw TypeError))
  ∧ handleFormSubmission st = (st, Throw TypeError).
Proof.
  intros Hempty Htoast.
  assert (showToast msg_incomplete "error" st = (st, Throw TypeError)) as Hshow.
  { unfold showToast. destruct Htoast as [->|(t & -> & ->)]; done. }
  unfold handleFormSubmission, start.
  by rewrite (some_empty_fails st Hempty), Hshow.
Qed.

Lemma invalid_form_without_toast_witness :
  start Samples.missing_no_toast
  = (Samples.missing_no_toast, Returned (Throw TypeError))
  ∧ handleFormSubmission Samples.missing_no_toast
    = (Samples.missing_no_toast, Throw TypeError).
Proof.
  apply (invalid_form_without_toast Samples.missing_no_toast).
  - exists "message". split.
    + apply elem_of_cons. right. apply elem_of_cons. right. by left.
    + right. by vm_compute.
  - by left.
Defined.

(** With the three fields filled but the button missing or short of a child,
    the handler throws a [TypeError] before anything is submitted: the form,
    the toast, the timers and the console are as before. *)
Theorem filled_form_without_button (st : State) :
  all_filled st → ¬ button_complete st →
  ∃ st', handleFormSubmission st = (st', Throw TypeError)
         ∧ form st' = form st ∧ toast st' = toast st
         ∧ timers st' = timers st ∧ console st' = console st.
Proof.
  intros Hf Hnb. unfold handleFormSubmission, start.
  rewrite (all_filled_passes st Hf). unfold setLoadingState.
  destruct (submitBtn st) as [b|] eqn:Hb; [|by eexists].
  destruct (btnText b) eqn:Hx; [|by eexists].
  destruct (btnLoading b) eqn:Hy; [|by eexists].
  destruct Hnb. exists b. split; [done|]. by split; eexists.
Qed.

Lemma filled_form_without_button_witness :
  ∃ st', handleFormSubmission Samples.filled_no_spinner = (st', Throw TypeError)
         ∧ form st' = form Samples.filled_no_spinner
         ∧ toast st' = toast Samples.filled_no_spinner
         ∧ timers st' = timers Samples.filled_no_spinner
         ∧ console st' = console Samples.filled_no_spinner.
Proof.
  apply (filled_form_without_button Samples.filled_no_spinner).
  - exact sample_all_filled.
  - intros (b & Hb & _ & [y Hy]). injection Hb as <-. discriminate Hy.
Defined.

(** On a page without [#toast] the continuation throws a [TypeError] however
    the promise settled: no toast is shown, the form is not reset even after a
    fulfilled submission, and only the button is put back. *)
Theorem resume_without_toast (r : Settlement) (st : State) :
  button_complete st → toast st = None →
  resume r st
  = (with_button {| btnText := Some "inline"; btnLoading := Some "none";
                    disabled := false |} st, Throw TypeError).
Proof.
  intros Hb Ht.
  unfold resume, resume_with, try_catch_finally, try_block, catch_block,
    await, seq, throw, showToast.
  destruct r as [|e]; rewrite ?Ht; cbn -[setLoadingState];
    by rewrite setLoadingState_complete.
Qed.

Lemma resume_without_toast_witness :
  (resume Fulfilled (start Samples.filled_no_toast).1).2 = Throw TypeError
  ∧ form (resume Fulfilled (start Samples.filled_no_toast).1).1
    = form Samples.filled_no_toast.
Proof.
  rewrite (resume_without_toast Fulfilled (start Samples.filled_no_toast).1).
  - done.
  - eexists. split; [by vm_compute|]. by split; eexists.
  - by vm_compute.
Defined.

(** *** Toasts and their timers *)

Lemma classList_remove_id tok cl : tok ∉ cl → classList_remove tok cl = cl.
Proof.
  unfold classList_remove. induction cl as [|t cl IH]; intros H; [done|].
  apply not_elem_of_cons in H as [Hne Hcl].
  rewrite filter_cons, decide_True by done. by rewrite IH.
Qed.

Lemma fire_last_but (k : nat) before cb after st :
  timers st = (before ++ (k, cb) :: after)%list →
  fire (length before) st
  = match cb with
    | HideToast =>
        (hide_toast {| form := form st; submitBtn := submitBtn st;
                       toast := toast st; timers := before ++ after;
                       console := console st |}, Normal)
    | SubmissionDone data =>
        resume Fulfilled
          {| form := form st; submitBtn := submitBtn st; toast := toast st;
             timers := before ++ after;
             console := (console st ++ [data])%list |}
    end.
Proof.
  intros Ht. unfold fire. rewrite Ht.
  rewrite list_lookup_middle by done. rewrite delete_middle.
  by destruct cb.
Qed.

(** A toast is shown and its timer runs: the toast is hidden again and,
    when it was hidden before, the page is as it was except that the toast
    keeps the new text and icon. *)
Theorem toast_shown_then_hidden (message type : string) (st : State) (t : Toast) :
  toast st = Some t →
  is_Some (toastMessage t) → is_Some (toastIcon t) →
  "show" ∉ toastClasses t →
  ∃ st1, showToast message type st = (st1, Normal)
         ∧ toast_shows message type st1
         ∧ fire (length (timers st)) st1
           = (with_toast {| toastMessage := Some message;
                            toastIcon := Some (icon_of type);
                            toastClasses := toastClasses t |} st, Normal).
Proof.
  intros Ht [m Hm] [i Hi] Hhidden.
  eexists. unfold showToast. rewrite Ht, Hm, Hi.
  split; [done|]. split; [apply toast_shows_after|].
  rewrite (fire_last_but 5000 (timers st) HideToast []) by done.
  unfold hide_toast, with_toast. simpl.
  rewrite classList_remove_add, classList_remove_id by done.
  by rewrite app_nil_r.
Qed.

Lemma toast_shown_then_hidden_witness :
  ∃ st1, showToast "Hola" "success" Samples.filled_form = (st1, Normal)
         ∧ toast_shows "Hola" "success" st1
         ∧ fire 0 st1
           = (with_toast {| toastMessage := Some "Hola";
                            toastIcon := Some (icon_of "success");
                            toastClasses := ["toast"] |}
                         Samples.filled_form, Normal).
Proof.
  apply (toast_shown_then_hidden "Hola" "success" Samples.filled_form
           {| toastMessage := Some ""; toastIcon := Some "";
              toastClasses := ["toast"] |}).
  - reflexivity.
  - by eexists.
  - by eexists.
  - apply (bool_decide_unpack _). by vm_compute.
Defined.

(** Two toasts in a row: when the timer of the first one runs, the toast is
    hidden although it now carries the second message, whose own timer is
    still pending. *)
Theorem earlier_timer_hides_later_toast
    (m1 type1 m2 type2 : string) (st : State) :
  toast_complete st →
  ∃ st1 st2 st3 t,
    showToast m1 type1 st = (st1, Normal)
    ∧ showToast m2 type2 st1 = (st2, Normal)
    ∧ toast_shows m2 type2 st2
    ∧ fire (length (timers st)) st2 = (st3, Normal)
    ∧ toast st3 = Some t
    ∧ toastMessage t = Some m2
    ∧ ("show" ∉ toastClasses t)
    ∧ timers st3 = (timers st ++ [(5000, HideToast)])%list.
Proof.
  intros Ht.
  destruct (showToast_complete m1 type1 st Ht) as (t1 & Ht1 & Hs1).
  set (st1 := setTimeout HideToast 5000 _) in Hs1.
  assert (toast_complete st1) as Hc1.
  { eexists. split; [done|]. by split; eexists. }
  destruct (showToast_complete m2 type2 st1 Hc1) as (t2 & Ht2 & Hs2).
  set (st2 := setTimeout HideToast 5000 _) in Hs2.
  eexists st1, st2, _, _.
  split; [done|]. split; [done|]. split; [apply toast_shows_after|].
  rewrite (fire_last_but 5000 (timers st) HideToast [(5000, HideToast)])
    by (subst st2 st1; simpl; by rewrite <- app_assoc).
  split; [done|]. split; [done|]. split; [done|].
  split; [apply classList_remove_absent|done].
Qed.

Lemma earlier_timer_hides_later_toast_witness :
  ∃ st1 st2 st3 t,
    showToast msg_incomplete "error" Samples.filled_form = (st1, Normal)
    ∧ showToast msg_sent "success" st1 = (st2, Normal)
    ∧ toast_shows msg_sent "success" st2
    ∧ fire (length (timers Samples.filled_form)) st2 = (st3, Normal)
    ∧ toast st3 = Some t
    ∧ toastMessage t = Some msg_sent
    ∧ ("show" ∉ toastClasses t)
    ∧ timers st3 = (timers Samples.filled_form ++ [(5000, HideToast)])%list.
Proof.
  apply (earlier_timer_hides_later_toast msg_incomplete "error"
           msg_sent "success" Samples.filled_form).
  exact sample_toast_complete.
Defined.

(** *** After a successful submission *)

(** On a page that has the button and the toast, a submission with the three
    fields filled leaves every control at its default value (not at the
    empty string), with the same controls as before, and the page is ready
    for the next submission. *)
Theorem success_restores_defaults (st : State) :
  button_complete st → toast_complete st → all_filled st →
  ∃ st', handleFormSubmission st = (st', Normal)
         ∧ (∀ key, formData_get key st' = defaultValue <$> form st !! key)
         ∧ (∀ key, defaultValue <$> form st' !! key
                   = defaultValue <$> form st !! key)
         ∧ dom (form st') = dom (form st)
         ∧ button_complete st' ∧ toast_complete st'.
Proof.
  intros Hb Ht Hf.
  destruct (handleFormSubmission_filled st Hb Ht Hf) as (t & d & _ & ->).
  eexists. split; [done|]. simpl.
  split; [|split; [|split; [|split]]].
  - intros key. unfold formData_get. simpl. rewrite lookup_fmap.
    by destruct (form st !! key).
  - intros key. rewrite lookup_fmap. by destruct (form st !! key).
  - apply dom_fmap_L.
  - eexists. split; [done|]. by split; eexists.
  - eexists. split; [done|]. by split; eexists.
Qed.

Lemma success_restores_defaults_witness :
  ∃ st', handleFormSubmission Samples.filled_form = (st', Normal)
         ∧ (∀ key, formData_get key st'
                   = defaultValue <$> form Samples.filled_form !! key)
         ∧ (∀ key, defaultValue <$> form st' !! key
                   = defaultValue <$> form Samples.filled_form !! key)
         ∧ dom (form st') = dom (form Samples.filled_form)
         ∧ button_complete st' ∧ toast_complete st'.
Proof.
  apply (success_restores_defaults Samples.filled_form).
  - exact sample_button_complete.
  - exact sample_toast_complete.
  - exact sample_all_filled.
Defined.

End ContactFormExtras.

(** ** The reveal animator: initialisation, order of reports, rendering *)

Module RevealExtras.
Import DOM DOMFacts AnimationObserver RevealTheorems.

Lemma observe_steps_observed (indices : list nat) st :
  observed (fold_left observe_step indices st)
  = list_to_set indices ∪ observed st.
Proof.
  revert st. induction indices as [|i indices IH]; intros st; simpl.
  - by rewrite (left_id_L ∅ (∪)).
  - rewrite IH. simpl.
    by rewrite (assoc_L (∪)), (comm_L (∪) (list_to_set indices)).
Qed.

Lemma init_classes (animatedElements : list Element) :
  classList <$> elements (init animatedElements) = classList <$> animatedElements.
Proof.
  apply list_eq. intros i. rewrite !list_lookup_fmap, init_elements.
  by destruct (animatedElements !! i).
Qed.

Lemma init_observed (animatedElements : list Element) i :
  i ∈ observed (init animatedElements) ↔ (i < length animatedElements)%nat.
Proof.
  unfold init, observeElements. rewrite observe_steps_observed. simpl.
  rewrite elem_of_union, elem_of_list_to_set, elem_of_seq.
  split; [intros [H|H]; [lia|by apply not_elem_of_empty in H]|].
  intros H. left. lia.
Qed.

Lemma init_length (animatedElements : list Element) :
  length (elements (init animatedElements)) = length animatedElements.
Proof.
  pose proof (init_classes animatedElements) as H.
  apply (f_equal length) in H. by rewrite !length_fmap in H.
Qed.

(** Initialisation puts every collected element, and nothing else, under
    observation; it keeps the number of elements and their class lists; with
    no element collected it does nothing. *)
Theorem init_observes_all (animatedElements : list Element) (i : nat) :
  (i ∈ observed (init animatedElements)
   ↔ (i < length animatedElements)%nat)
  ∧ length (elements (init animatedElements)) = length animatedElements
  ∧ classList <$> elements (init animatedElements)
    = classList <$> animatedElements
  ∧ init [] = {| elements := []; observed := ∅ |}.
Proof.
  split; [apply init_observed|].
  split; [apply init_length|]. split; [apply init_classes|done].
Qed.

(** *** The order of the reports *)

Lemma callback_entry_commute st a b :
  callback_entry (callback_entry st a) b
  = callback_entry (callback_entry st b) a.
Proof.
  unfold callback_entry.
  destruct (isIntersecting a) eqn:Ha, (isIntersecting b) eqn:Hb;
    simpl; rewrite ?Ha, ?Hb; try done.
  destruct (decide (target a = target b)) as [Heq|Hne]; [by rewrite Heq|].
  f_equal.
  - apply list_eq. intros j.
    destruct (decide (target a = j)) as [<-|Ha'];
      [|destruct (decide (target b = j)) as [<-|Hb']].
    + rewrite list_lookup_alter_ne by done.
      rewrite !list_lookup_alter_eq. by rewrite list_lookup_alter_ne by done.
    + rewrite list_lookup_alter_eq, !list_lookup_alter_ne by done.
      by rewrite list_lookup_alter_eq.
    + by rewrite !list_lookup_alter_ne by done.
  - apply set_eq. intros i. rewrite !elem_of_difference. tauto.
Qed.

Lemma callback_cons entry entries st :
  callback (entry :: entries) st = callback entries (callback_entry st entry).
Proof. done. Qed.

Lemma callback_permutation entries entries' st :
  entries ≡ₚ entries' → callback entries st = callback entries' st.
Proof.
  intros Hp. revert st.
  induction Hp as [|e l l' _ IH|a b l|l l' l'' _ IH1 _ IH2]; intros st.
  - done.
  - rewrite !callback_cons. apply IH.
  - rewrite !callback_cons. by rewrite callback_entry_commute.
  - by rewrite IH1, IH2.
Qed.

Lemma callback_app entries entries' st :
  callback (entries ++ entries') st = callback entries' (callback entries st).
Proof. unfold callback. apply fold_left_app. Qed.

(** The callback does not depend on the order of the entries it is given,
    nor on how the reports are cut into batches. *)
Theorem callback_order_irrelevant
    (entries entries' : list Entry) (batches : list (list Entry)) (st : State) :
  (entries ≡ₚ entries' → callback entries st = callback entries' st)
  ∧ run batches st = callback (concat batches) st.
Proof.
  split; [apply callback_permutation|].
  unfold run. revert st.
  induction batches as [|batch batches IH]; intros st; [done|].
  simpl. by rewrite IH, callback_app.
Qed.

Lemma callback_order_irrelevant_witness :
  callback [ {| target := 0; isIntersecting := true |};
             {| target := 2; isIntersecting := true |} ]
           (init Samples.three_cards)
  = callback [ {| target := 2; isIntersecting := true |};
               {| target := 0; isIntersecting := true |} ]
             (init Samples.three_cards).
Proof.
  apply (proj1 (callback_order_irrelevant _ _ [] (init Samples.three_cards))).
  apply perm_swap.
Defined.

(** Entries that are not intersecting have no effect at all, and the targets
    still observed after a callback are those observed before less the
    targets of the intersecting entries. *)
Theorem callback_unobserves_reported (entries : list Entry) (st : State) :
  callback entries st
  = callback (filter (λ e, isIntersecting e = true) entries) st
  ∧ observed (callback entries st)
    = observed st
      ∖ list_to_set (target <$> filter (λ e, isIntersecting e = true) entries).
Proof.
  split.
  - revert st. induction entries as [|e entries IH]; intros st; [done|].
    rewrite filter_cons, callback_cons. case_decide as He.
    + by rewrite callback_cons, IH.
    + rewrite IH. unfold callback_entry.
      by destruct (isIntersecting e).
  - revert st. induction entries as [|e entries IH]; intros st.
    + simpl. by rewrite difference_empty_L.
    + rewrite filter_cons, callback_cons, IH. unfold callback_entry.
      destruct (isIntersecting e) eqn:He.
      * rewrite decide_True by done. rewrite fmap_cons. simpl.
        by rewrite difference_difference_l_L.
      * rewrite decide_False by (by intros H). done.
Qed.

(** *** What is rendered *)

Lemma reported_settled entries entry st :
  entry ∈ entries → isIntersecting entry = true →
  settled (target entry) (callback entries st).
Proof.
  intros Hin He. apply list_elem_of_split in Hin as (before & after & ->).
  rewrite callback_app, callback_cons.
  by apply settled_callback, settled_after_report.
Qed.

(** An element that does not carry [animate-in] is rendered transparent and
    50 px down once initialisation has run; once a callback has reported it
    as intersecting it is rendered opaque and in place, whatever else that
    callback reported. *)
Theorem element_revealed_on_report
    (animatedElements : list Element) (entries : list Entry)
    (entry : Entry) (el : Element) :
  animatedElements !! target entry = Some el →
  "animate-in" ∉ classList el →
  entry ∈ entries → isIntersecting entry = true →
  (∃ el0, elements (init animatedElements) !! target entry = Some el0
          ∧ rendered_opacity el0 = "0"
          ∧ rendered_transform el0 = "translateY(50px)")
  ∧ (∃ el1, elements (callback entries (init animatedElements)) !! target entry
            = Some el1
            ∧ rendered_opacity el1 = "1"
            ∧ rendered_transform el1 = "translateY(0)").
Proof.
  intros Hel Hpending Hin He. split.
  - exists (prepare (target entry) el).
    rewrite init_elements, Hel. split; [done|].
    unfold rendered_opacity, rendered_transform, classList_contains. simpl.
    by rewrite bool_decide_eq_false_2.
  - destruct (reported_settled entries entry (init animatedElements) Hin He)
      as [_ Hcl].
    assert (target entry < length (elements (callback entries (init animatedElements))))%nat
      as Hlen.
    { rewrite length_callback.
      apply lookup_lt_is_Some. rewrite init_elements, Hel. by eexists. }
    destruct (lookup_lt_is_Some_2 _ _ Hlen) as [el1 Hel1].
    exists el1. split; [done|].
    unfold rendered_opacity, rendered_transform, classList_contains.
    by rewrite bool_decide_eq_true_2 by by apply Hcl.
Qed.

Lemma element_revealed_on_report_witness :
  (∃ el0, elements (init Samples.three_cards) !! 1 = Some el0
          ∧ rendered_opacity el0 = "0"
          ∧ rendered_transform el0 = "translateY(50px)")
  ∧ (∃ el1, elements (callback [Samples.first_report]
                        (init Samples.three_cards)) !! 1 = Some el1
            ∧ rendered_opacity el1 = "1"
            ∧ rendered_transform el1 = "translateY(0)").
Proof.
  apply (element_revealed_on_report Samples.three_cards
           [Samples.first_report] Samples.first_report
           {| opacity := ""; transform := ""; transition := [];
              classList := ["project-card"] |}).
  - reflexivity.
  - apply (bool_decide_unpack _). by vm_compute.
  - by left.
  - reflexivity.
Defined.

(** When every collected element has been reported as intersecting, nothing
    is observed any more and every element is triggered. *)
Theorem all_reported_none_observed
    (animatedElements : list Element) (entries : list Entry) :
  (∀ i, (i < length animatedElements)%nat →
        ∃ entry, entry ∈ entries ∧ target entry = i
                 ∧ isIntersecting entry = true) →
  observed (callback entries (init animatedElements)) = ∅
  ∧ ∀ i, (i < length animatedElements)%nat →
         triggered i (callback entries (init animatedElements)) = true.
Proof.
  intros Hall.
  assert (∀ i, (i < length animatedElements)%nat →
               settled i (callback entries (init animatedElements))) as Hs.
  { intros i Hi. destruct (Hall i Hi) as (entry & Hin & <- & He).
    by apply reported_settled. }
  split.
  - apply elem_of_equiv_empty_L. intros i Hi.
    assert (i < length animatedElements)%nat as Hlt.
    { apply (observed_callback entries) in Hi.
      by apply init_observed in Hi. }
    by destruct (Hs i Hlt) as [Hout _].
  - intros i Hi. apply settled_triggered; [by apply Hs|].
    by rewrite length_callback, init_length.
Qed.

Lemma all_reported_none_observed_witness :
  observed (callback [ {| target := 2; isIntersecting := true |};
                       {| target := 0; isIntersecting := true |};
                       {| target := 1; isIntersecting := true |} ]
                     (init Samples.three_cards)) = ∅
  ∧ ∀ i, (i < length Samples.three_cards)%nat →
         triggered i (callback [ {| target := 2; isIntersecting := true |};
                                 {| target := 0; isIntersecting := true |};
                                 {| target := 1; isIntersecting := true |} ]
                               (init Samples.three_cards)) = true.
Proof.
  apply (all_reported_none_observed Samples.three_cards).
  intros i Hi. exists {| target := i; isIntersecting := true |}.
  split; [|done]. simpl in Hi.
  destruct i as [|[|[|i]]]; [| | |lia].
  - apply elem_of_cons. right. by left.
  - apply elem_of_cons. right. apply elem_of_cons. right. by left.
  - by left.
Defined.

End RevealExtras.

(** ** The parallax effect *)

Module ParallaxExtras.
Import ParallaxManager.


End ParallaxExtras.

(** ** The mouse trail *)

Module MouseTrailExtras.
Import MouseTrail.

Lemma length_follow tX tY ds : length (follow tX tY ds) = length ds.
Proof.
  revert tX tY. induction ds as [|dot ds IH]; intros tX tY; [done|].
  simpl. by rewrite IH.
Qed.

Lemma opacity_follow tX tY ds : opacity <$> follow tX tY ds = opacity <$> ds.
Proof.
  revert tX tY. induction ds as [|dot ds IH]; intros tX tY; [done|].
  simpl. by rewrite IH.
Qed.

Lemma set_opacity_same dot : set_opacity (opacity dot) dot = dot.
Proof. by destruct dot. Qed.

Lemma mouseenter_id st : mouseenter st = st.
Proof.
  destruct st as [ds m]. unfold mouseenter. simpl. f_equal.
  rewrite <- (list_fmap_id ds) at 2. apply list_fmap_ext.
  intros i dot _. apply set_opacity_same.
Qed.

Lemma length_handle st ev : length (dots (handle st ev)) = length (dots st).
Proof.
  destruct ev; simpl; rewrite ?length_fmap, ?length_follow; done.
Qed.

Lemma length_run events st : length (dots (run events st)) = length (dots st).
Proof.
  unfold run. revert st.
  induction events as [|ev events IH]; intros st; [done|].
  simpl. by rewrite IH, length_handle.
Qed.

Lemma hidden_kept st ev :
  Forall (λ o, o = Text "0") (opacity <$> dots st) →
  Forall (λ o, o = Text "0") (opacity <$> dots (handle st ev)).
Proof.
  intros H. destruct ev; unfold handle.
  - done.
  - by rewrite mouseenter_id.
  - simpl. rewrite <- list_fmap_compose. apply Forall_fmap, Forall_forall. done.
  - simpl. by rewrite opacity_follow.
Qed.

Lemma hidden_run events st :
  Forall (λ o, o = Text "0") (opacity <$> dots st) →
  Forall (λ o, o = Text "0") (opacity <$> dots (run events st)).
Proof.
  unfold run. revert st.
  induction events as [|ev events IH]; intros st H; [done|].
  simpl. by apply IH, hidden_kept.
Qed.

(** The trail always has its five dots.  The [mouseenter] listener changes
    nothing, so once the pointer has left the document every dot has opacity
    [0] and keeps it whatever happens next: the trail does not come back. *)
Theorem trail_never_reappears (before after : list Event) (st : State) :
  mouseenter st = st
  ∧ length (dots (run before constructor)) = 5
  ∧ Forall (λ dot, opacity dot = Text "0")
           (dots (run (before ++ MouseLeave :: after) st)).
Proof.
  split; [apply mouseenter_id|]. split; [by rewrite length_run|].
  apply (Forall_fmap opacity (λ o, o = Text "0")).
  unfold run. rewrite fold_left_app. simpl. apply hidden_run.
  simpl. rewrite <- list_fmap_compose. apply Forall_fmap, Forall_forall. done.
Qed.

Lemma follow_lookup tX tY ds i old :
  ds !! i = Some old →
  ∃ dot, follow tX tY ds !! i = Some dot
         ∧ opacity dot = opacity old
         ∧ x dot = (x old + (targetX dot - x old) * 0.15)%float
         ∧ y dot = (y old + (targetY dot - y old) * 0.15)%float
         ∧ transform dot = Some (x dot - 3, y dot - 3)%float
         ∧ (i = 0%nat → targetX dot = tX ∧ targetY dot = tY)
         ∧ (∀ next, follow tX tY ds !! Datatypes.S i = Some next →
                    targetX next = x dot ∧ targetY next = y dot).
Proof.
  revert tX tY i. induction ds as [|d ds IH]; intros tX tY i Hi; [done|].
  destruct i as [|i].
  - injection Hi as <-. eexists. split; [done|]. simpl.
    do 5 (split; [done|]).
    intros next Hnext. destruct ds as [|d' ds]; [done|].
    by injection Hnext as <-.
  - simpl in Hi.
    destruct (IH (x d + (tX - x d) * 0.15)%float
                 (y d + (tY - y d) * 0.15)%float i Hi)
      as (dot & Hdot & Ho & Hx & Hy & Ht & _ & Hnext).
    exists dot. split; [exact Hdot|].
    do 4 (split; [done|]). split; [done|exact Hnext].
Qed.

(** In one run of [animate] every dot is moved by 0.15 times the distance to
    its target, computed in doubles as the script does: the first dot
    towards the pointer, every other dot towards the new position of the dot
    before it; its element is placed 3 px up and left of that position and
    its opacity is left alone. *)
Theorem trail_follows_in_chain (st : State) (i : nat) (old : Dot) :
  dots st !! i = Some old →
  ∃ dot, dots (animate st) !! i = Some dot
         ∧ opacity dot = opacity old
         ∧ x dot = (x old + (targetX dot - x old) * 0.15)%float
         ∧ y dot = (y old + (targetY dot - y old) * 0.15)%float
         ∧ transform dot = Some (x dot - 3, y dot - 3)%float
         ∧ (i = 0%nat → (targetX dot, targetY dot) = mouse st)
         ∧ (∀ next, dots (animate st) !! Datatypes.S i = Some next →
                    targetX next = x dot ∧ targetY next = y dot).
Proof.
  intros Hi. unfold animate. simpl.
  destruct (follow_lookup (mouse st).1 (mouse st).2 (dots st) i old Hi)
    as (dot & Hdot & Ho & Hx & Hy & Ht & Hfirst & Hnext).
  exists dot. do 5 (split; [done|]). split; [|exact Hnext].
  intros H0. destruct (Hfirst H0) as [-> ->]. by destruct (mouse st).
Qed.

Lemma trail_follows_in_chain_witness :
  ∃ first second,
    dots (animate (mousemove 40 20 constructor)) !! 0 = Some first
    ∧ dots (animate (mousemove 40 20 constructor)) !! 1 = Some second
    ∧ (targetX first, targetY first) = (40, 20)%float
    ∧ x first = 6%float
    ∧ targetX second = 6%float
    ∧ x second = 0.8999999999999999%float
    ∧ transform second = Some (x second - 3, y second - 3)%float.
Proof.
  assert (∃ old0 old1,
            dots (mousemove 40 20 constructor) !! 0 = Some old0
            ∧ dots (mousemove 40 20 constructor) !! 1 = Some old1
            ∧ x old0 = 0%float ∧ x old1 = 0%float)
    as (old0 & old1 & H0 & H1 & Hx0 & Hx1).
  { eexists _, _. split; [reflexivity|]. split; [reflexivity|].
    split; by vm_compute. }
  destruct (trail_follows_in_chain _ 0 old0 H0)
    as (first & Hfirst & _ & Hxf & _ & _ & Hmouse & Hnext).
  destruct (trail_follows_in_chain _ 1 old1 H1)
    as (second & Hsecond & _ & Hxs & _ & Hts & _ & _).
  exists first, second. split; [exact Hfirst|]. split; [exact Hsecond|].
  assert ((targetX first, targetY first) = (40, 20)%float) as Hm
    by by apply Hmouse.
  injection Hm as HtX HtY.
  assert (x first = 6%float) as Hx6.
  { rewrite Hxf, HtX, Hx0. by vm_compute. }
  destruct (Hnext second Hsecond) as [Htx _].
  split; [by rewrite HtX, HtY|]. split; [exact Hx6|].
  split; [by rewrite Htx|]. split; [|exact Hts].
  rewrite Hxs, Htx, Hx6, Hx1. by vm_compute.
Defined.

End MouseTrailExtras.

(** ** The section tracker: layout and class lists *)

Module NavigationExtras.
Import DOM DOMFacts NavigationManager NavigationTheorems.

Lemma classList_add_NoDup tok cl : NoDup cl → NoDup (classList_add tok cl).
Proof.
  intros H. unfold classList_add. case_bool_decide as Hin; [done|].
  apply NoDup_app. split; [done|]. split; [|apply NoDup_singleton].
  intros x Hx Hx'. apply list_elem_of_singleton in Hx'. by subst.
Qed.

Lemma classList_remove_NoDup tok cl : NoDup cl → NoDup (classList_remove tok cl).
Proof. apply NoDup_filter. Qed.

(** The handler touches nothing but the token [active]: it keeps the number
    and order of the links, their [href]s, and every other token of their
    class lists in its place; a class list without repetition stays so. *)
Theorem links_keep_other_classes
    (sections : list PageSection) (navLinks : list NavLink) (i : nat)
    (link : NavLink) :
  navLinks !! i = Some link →
  length (updateActiveNavigation sections navLinks) = length navLinks
  ∧ ∃ link', updateActiveNavigation sections navLinks !! i = Some link'
             ∧ href link' = href link
             ∧ classList_remove "active" (classList link')
               = classList_remove "active" (classList link)
             ∧ (NoDup (classList link) → NoDup (classList link')).
Proof.
  intros Hi. unfold updateActiveNavigation. split; [apply length_fmap|].
  exists (visit_link (find_current sections) link).
  rewrite list_lookup_fmap, Hi. split; [done|].
  split; [apply href_visit_link|]. unfold visit_link.
  case_bool_decide; simpl.
  - split; [by rewrite classList_remove_add, classList_remove_idem|].
    intros H'. by apply classList_add_NoDup, classList_remove_NoDup.
  - split; [apply classList_remove_idem|apply classList_remove_NoDup].
Qed.

Lemma links_keep_other_classes_witness :
  length (updateActiveNavigation Samples.four_sections Samples.menu) = 3
  ∧ ∃ link', updateActiveNavigation Samples.four_sections Samples.menu !! 0
             = Some link'
             ∧ href link' = Some "#home"
             ∧ classList_remove "active" (classList link') = ["nav-link"].
Proof.
  destruct (links_keep_other_classes Samples.four_sections Samples.menu 0
              {| href := Some "#home"; classList := ["nav-link"; "active"] |}
              eq_refl) as (Hlen & link' & Hl & Hhref & Hcl & _).
  split; [exact Hlen|]. exists link'. split; [exact Hl|].
  split; [exact Hhref|]. rewrite Hcl. by vm_compute.
Defined.

(** Sections whose top is below the threshold play no part: [current] is the
    same when they are all left out. *)
Theorem current_ignores_sections_below (sections : list PageSection) :
  find_current sections
  = find_current (filter (λ s, (sec_top s <= threshold)%Q) sections).
Proof.
  rewrite !find_current_is_last_match. unfold last_match.
  rewrite list_filter_filter. do 3 f_equal.
  apply list_filter_iff. tauto.
Qed.

Lemma current_of_layout (sections : list PageSection) (s : PageSection) :
  top_to_bottom sections →
  s ∈ sections → (sec_top s <= threshold)%Q →
  ∃ c, c ∈ sections ∧ find_current sections = sec_id c
       ∧ (sec_top c <= threshold)%Q ∧ (sec_top s <= sec_top c)%Q.
Proof.
  induction sections as [|x sections IH] using rev_ind; intros Hsorted Hin Hs.
  { by apply elem_of_nil in Hin. }
  rewrite find_current_snoc. unfold visit_section.
  destruct (Qle_bool (sec_top x) threshold) eqn:Hx.
  - exists x. split; [apply elem_of_app; right; by left|]. split; [done|].
    split; [by apply qualifies_iff|].
    apply elem_of_app in Hin as [Hin|Hin].
    + apply (StronglySorted_app_1_elem_of _ _ _ _ _ Hsorted Hin). by left.
    + apply list_elem_of_singleton in Hin as ->. apply Qle_refl.
  - apply elem_of_app in Hin as [Hin|Hin].
    + destruct (IH (StronglySorted_app_1_l _ _ _ Hsorted) Hin Hs)
        as (c & Hc & Hcur & Hq & Hle).
      exists c. split; [apply elem_of_app; by left|done].
    + apply list_elem_of_singleton in Hin as ->.
      apply qualifies_iff in Hs. congruence.
Qed.

(** When the sections come one below the other and at least one has reached
    the threshold, [current] is the key of a section that has reached it and
    that no other such section lies below: the one nearest to the line. *)
Theorem current_is_nearest_to_line
    (sections : list PageSection) (s : PageSection) :
  top_to_bottom sections →
  s ∈ sections → (sec_top s <= 150)%Q →
  ∃ c, c ∈ sections ∧ find_current sections = sec_id c
       ∧ (sec_top c <= 150)%Q ∧ (sec_top s <= sec_top c)%Q.
Proof. apply current_of_layout. Qed.

Lemma current_is_nearest_to_line_witness :
  ∃ c, c ∈ Samples.page_scrolled
       ∧ find_current Samples.page_scrolled = sec_id c
       ∧ (sec_top c <= 150)%Q ∧ (-900 <= sec_top c)%Q.
Proof.
  apply (current_is_nearest_to_line Samples.page_scrolled
           {| sec_id := "home"; sec_top := -900 |}).
  - unfold top_to_bottom, Samples.page_scrolled.
    repeat (apply SSorted_cons; [|repeat constructor; by vm_compute]).
    apply SSorted_nil.
  - by left.
  - by vm_compute.
Defined.

End NavigationExtras.
